(** * KOReader Sync for calibre: the configuration panel ([config.py])

    A shallow embedding of the column-mapping editor of the plug-in: the
    registry of sync-able fields ([COLUMNS]), the enumeration of the host's
    custom columns ([get_custom_columns], [get_rating_columns]), the
    selection control ([CustomColumnComboBox]) and the write-back of the
    selection into the persisted configuration ([save_settings]).

    Python dictionaries are finite maps ([gmap]) with string keys; Python
    exceptions are the [Raise] results of a small error monad; the module
    level objects [COLUMNS] and [CONFIG], which the code mutates in place,
    are threaded explicitly through the operations. *)

From Stdlib Require Import ZArith String Ascii List Sorted Permutation Lia.
From Stdlib Require Import QArith Qround Qpower.
From Stdlib Require Import Floats.SpecFloat.
From stdpp Require Import base option list sorting strings pretty gmap fin_maps fin_map_dom.

Local Open Scope string_scope.
Local Open Scope list_scope.
Local Open Scope Z_scope.

(** ** Python exceptions as an error monad *)

Inductive exn : Type :=
  | KeyError
  | IndexError
  | TypeError
  | ValueError
  | OverflowError.

Inductive result (A : Type) : Type :=
  | Ok (a : A)
  | Raise (e : exn).
Arguments Ok {A} a.
Arguments Raise {A} e.

Definition result_bind {A B} (f : A → result B) (r : result A) : result B :=
  match r with
  | Ok a => f a
  | Raise e => Raise e
  end.

#[global] Instance result_ret : MRet result := λ A a, Ok a.
#[global] Instance result_mbind : MBind result := λ A B f r, result_bind f r.

Definition from_option {A} (e : exn) (o : option A) : result A :=
  match o with
  | Some a => Ok a
  | None => Raise e
  end.

(** ** Python strings and lists

    A [str] is a [string]; compared as Python compares strings, item by
    item.  (On UTF-8 text the order of the bytes is the order of the code
    points.) *)

Definition str_le (s1 s2 : string) : Prop := String.leb s1 s2 = true.

#[global] Instance str_le_dec (s1 s2 : string) : Decision (str_le s1 s2).
Proof. unfold str_le. apply _. Defined.

(** [sorted(xs)] on strings. *)
Definition sorted (xs : list string) : list string := merge_sort str_le xs.

(** [xs[i]] for a Python list: a negative index counts from the end, an
    index outside [-len, len) raises [IndexError]. *)
Definition py_getitem {A} (xs : list A) (i : Z) : result A :=
  let n := Z.of_nat (length xs) in
  if (0 <=? i) && (i <? n) then from_option IndexError (xs !! Z.to_nat i)
  else if (- n <=? i) && (i <? 0) then from_option IndexError (xs !! Z.to_nat (n + i))
  else Raise IndexError.

(** ** The host: calibre's library model *)

Module Calibre.

(** The metadata of one custom column, as far as the code reads it:
    [column['datatype']], the truth value of [column['is_multiple']] and
    [column['name']]. *)
Record custom_column : Type := CustomColumn {
  datatype : string;
  is_multiple : bool;
  name : string
}.

(** [gui.library_view.model()]: the custom columns by key and the header
    of the built-in rating column, [orig_headers['rating']]. *)
Record library_model : Type := LibraryModel {
  custom_columns : gmap string custom_column;
  orig_headers_rating : string
}.

End Calibre.

(** A value of an available-columns dictionary: a custom column of the host
    or the dictionary [{'name': rating_column_name}] that stands for the
    built-in rating column. *)
Inductive column : Type :=
  | Custom (c : Calibre.custom_column)
  | Builtin (rating_column_name : string).

(** [column['name']] *)
Definition column_name (c : column) : string :=
  match c with
  | Custom c => Calibre.name c
  | Builtin n => n
  end.

#[global] Instance custom_column_eq_dec : EqDecision Calibre.custom_column.
Proof. solve_decision. Defined.
#[global] Instance column_eq_dec : EqDecision column.
Proof. solve_decision. Defined.

(** ** [CustomColumnsLayout]: the columns a field can be mapped to *)

Section custom_columns_layout.
Variable model : Calibre.library_model.

(** The body of the loop of [get_custom_columns]. *)
Definition get_custom_columns_step (column_types : list string)
    (key : string) (c : Calibre.custom_column)
    (available_columns : gmap string column) : gmap string column :=
  let type_ := Calibre.datatype c in
  if bool_decide (type_ ∈ column_types) && negb (Calibre.is_multiple c)
  then <[key := Custom c]> available_columns
  else available_columns.

Definition get_custom_columns (column_types : list string) : gmap string column :=
  map_fold (get_custom_columns_step column_types) ∅ (Calibre.custom_columns model).

Definition get_rating_columns : gmap string column :=
  let rating_columns := get_custom_columns ["rating"] in
  let rating_column_name := Calibre.orig_headers_rating model in
  <["rating" := Builtin rating_column_name]> rating_columns.

(** The dictionary built at the start of [CustomColumnsLayout.__init__]. *)
Definition available_columns : gmap string (gmap string column) :=
  <["text" := get_custom_columns ["text"]]>
  (<["rating" := get_rating_columns]>
  (<["int" := get_custom_columns ["int"]]>
  (<["float" := get_custom_columns ["float"]]>
  (<["datetime" := get_custom_columns ["datetime"]]>
  (<["comments" := get_custom_columns ["comments"]]> ∅))))).

End custom_columns_layout.

(** A custom column is eligible for a list of types when its data type is
    in the list and it is not multi-valued. *)
Definition eligible (column_types : list string)
    (kc : string * Calibre.custom_column) : Prop :=
  Calibre.datatype kc.2 ∈ column_types ∧ Calibre.is_multiple kc.2 = false.

#[global] Instance eligible_dec column_types kc : Decision (eligible column_types kc).
Proof. unfold eligible. apply _. Defined.

(** ** [CustomColumnComboBox] *)

(** The state of the control: the option texts and the current index of
    the [QComboBox] it extends, and the keys behind the options. *)
Record CustomColumnComboBox : Type := ComboBox {
  items : list string;
  currentIndex : Z;
  column_names : list string
}.

(** The [QComboBox] operations the code calls, as Qt documents them for a
    control that is not editable. *)
Definition clear (self : CustomColumnComboBox) : CustomColumnComboBox :=
  {| items := []; currentIndex := -1; column_names := column_names self |}.

Definition addItem (text : string) (self : CustomColumnComboBox) : CustomColumnComboBox :=
  {| items := items self ++ [text];
     currentIndex := if decide (items self = []) then 0 else currentIndex self;
     column_names := column_names self |}.

Definition count (self : CustomColumnComboBox) : Z := Z.of_nat (length (items self)).

Definition setCurrentIndex (index : Z) (self : CustomColumnComboBox) : CustomColumnComboBox :=
  {| items := items self;
     currentIndex := if (0 <=? index) && (index <? count self) then index else -1;
     column_names := column_names self |}.

Definition set_column_names (names : list string) (self : CustomColumnComboBox)
    : CustomColumnComboBox :=
  {| items := items self; currentIndex := currentIndex self; column_names := names |}.

(** ['{} ({})'.format(name, key)] *)
Definition format_display_name (name key : string) : string :=
  name +:+ " (" +:+ key +:+ ")".

(** The body of the loop of [populate_combo]; the loop carries the control
    and [selected_idx]. *)
Definition populate_combo_step (custom_columns : gmap string column)
    (selected_column : string) (key : string)
    (st : CustomColumnComboBox * Z) : result (CustomColumnComboBox * Z) :=
  let '(self, selected_idx) := st in
  let self := set_column_names (column_names self ++ [key]) self in
  c ← from_option KeyError (custom_columns !! key);
  let display_name := format_display_name (column_name c) key in
  let self := addItem display_name self in
  let selected_idx :=
    if decide (key = selected_column)
    then Z.of_nat (length (column_names self)) - 1
    else selected_idx in
  Ok (self, selected_idx).

Fixpoint populate_combo_loop (custom_columns : gmap string column)
    (selected_column : string) (keys : list string)
    (st : CustomColumnComboBox * Z) : result (CustomColumnComboBox * Z) :=
  match keys with
  | [] => Ok st
  | key :: keys =>
      st ← populate_combo_step custom_columns selected_column key st;
      populate_combo_loop custom_columns selected_column keys st
  end.

(** [custom_columns.keys()] *)
Definition keys (custom_columns : gmap string column) : list string :=
  (map_to_list custom_columns).*1.

Definition populate_combo (custom_columns : gmap string column)
    (selected_column : string) (self : CustomColumnComboBox)
    : result CustomColumnComboBox :=
  let self := clear self in
  let self := set_column_names [EmptyString] self in
  let self := addItem "do not sync" self in
  let selected_idx := 0 in
  '(self, selected_idx) ←
    populate_combo_loop custom_columns selected_column
      (sorted (keys custom_columns)) (self, selected_idx);
  Ok (setCurrentIndex selected_idx self).

(** [CustomColumnComboBox.__init__]: a fresh control, populated. *)
Definition new_combo (custom_columns : gmap string column)
    (selected_column : string) : result CustomColumnComboBox :=
  populate_combo custom_columns selected_column
    {| items := []; currentIndex := -1; column_names := [] |}.

Definition get_selected_column (self : CustomColumnComboBox) : result string :=
  py_getitem (column_names self) (currentIndex self).

(** ** Python values

    The values a sidecar holds once it is parsed, and the Python
    operations the transforms of the registry apply to them. *)

(** A [float] is an IEEE 754 binary64 number. *)
Definition prec : Z := 53.
Definition emax : Z := 1024.

Definition float_mul (x y : spec_float) : spec_float := SFmul prec emax x y.

(** The conversion of an [int] to [float]: the nearest float, ties to
    even; [OverflowError] beyond the range of the finite floats. *)
Definition int_to_float (n : Z) : result spec_float :=
  match binary_normalize prec emax n 0 false with
  | S754_infinity _ => Raise OverflowError
  | x => Ok x
  end.

(** The float an [int] operand of a float operation is converted to. *)
Definition float_of_int (n : Z) : spec_float := binary_normalize prec emax n 0 false.

(** The real number a float stands for, when it stands for one. *)
Definition float_to_Q (x : spec_float) : option Q :=
  match x with
  | S754_zero _ => Some 0%Q
  | S754_finite s m e => Some (inject_Z (cond_Zopp s (Z.pos m)) * 2 ^ e)%Q
  | S754_infinity _ | S754_nan => None
  end.

(** The floats that the literals [0.73], [0.999] and [4.0] denote. *)
Definition float_0_73 : spec_float := S754_finite false 6575255455960924 (-53).
Definition float_0_999 : spec_float := S754_finite false 8998192055486251 (-53).
Definition float_4_0 : spec_float := S754_finite false 4503599627370496 (-50).

(** A key of a dictionary of the sidecar: a string or an integer. *)
#[local] Set Warnings "-register-all".

Inductive pykey : Type :=
  | KStr (s : string)
  | KInt (n : Z).

Inductive pyval : Type :=
  | PNone
  | PBool (b : bool)
  | PInt (n : Z)
  | PFloat (x : spec_float)
  | PStr (s : string)
  | PList (xs : list pyval)
  | PDict (kvs : list (pykey * pyval)).

(** The collaborators of the module that are not part of it: the bookmark
    cleaner of the plug-in's package, and two functions of the Python
    runtime, the parser behind [float(str)] and [float.__repr__]. *)
Class Externals : Type := {
  clean_bookmarks : pyval → result pyval;
  float_of_str : string → result spec_float;
  float_repr : spec_float → string
}.

(** [float(value)] *)
Definition float_ `{Externals} (value : pyval) : result spec_float :=
  match value with
  | PFloat x => Ok x
  | PInt n => int_to_float n
  | PBool b => Ok (float_of_int (if b then 1 else 0))
  | PStr s => float_of_str s
  | PNone | PList _ | PDict _ => Raise TypeError
  end.

(** [math.floor(x)] for a float [x]. *)
Definition math_floor (x : spec_float) : result Z :=
  match x with
  | S754_nan => Raise ValueError
  | S754_infinity _ => Raise OverflowError
  | S754_zero _ => Ok 0
  | S754_finite s m e =>
      let sm := cond_Zopp s (Z.pos m) in
      Ok (if 0 <=? e then sm * 2 ^ e else sm / 2 ^ (- e))
  end.

Fixpoint str_repeat (n : nat) (s : string) : string :=
  match n with
  | O => EmptyString
  | S n => s +:+ str_repeat n s
  end.

(** [value * k] for an [int] literal [k]. *)
Definition py_mul_int (value : pyval) (k : Z) : result pyval :=
  match value with
  | PInt n => Ok (PInt (n * k))
  | PBool b => Ok (PInt ((if b then 1 else 0) * k))
  | PFloat x => Ok (PFloat (float_mul x (float_of_int k)))
  | PStr s => Ok (PStr (str_repeat (Z.to_nat k) s))
  | PList xs => Ok (PList (mjoin (replicate (Z.to_nat k) xs)))
  | PNone | PDict _ => Raise TypeError
  end.

(** *** [json.dumps(value, indent=2)]

    The encoder of Python's [json] package with its defaults
    ([ensure_ascii], [allow_nan], no key sorting) and [indent=2], for which
    the separators are [','] and [': '].  A generator is the list of the
    chunks it yields. *)

Definition nl : string := String "010"%char EmptyString.
Definition dq : string := String "034"%char EmptyString.
Definition bs : string := String "092"%char EmptyString.

(** The code points of a [str], held as its UTF-8 bytes.  A byte that does
    not start a complete sequence counts as a code point of its own. *)
Fixpoint code_points (bytes : list Z) : list Z :=
  match bytes with
  | [] => []
  | b0 :: rest =>
      if b0 <? 0xC0 then b0 :: code_points rest
      else if b0 <? 0xE0 then
        match rest with
        | b1 :: rest =>
            Z.lor (Z.shiftl (Z.land b0 0x1F) 6) (Z.land b1 0x3F) :: code_points rest
        | _ => b0 :: code_points rest
        end
      else if b0 <? 0xF0 then
        match rest with
        | b1 :: b2 :: rest =>
            Z.lor (Z.shiftl (Z.land b0 0x0F) 12)
              (Z.lor (Z.shiftl (Z.land b1 0x3F) 6) (Z.land b2 0x3F))
            :: code_points rest
        | _ => b0 :: code_points rest
        end
      else
        match rest with
        | b1 :: b2 :: b3 :: rest =>
            Z.lor (Z.shiftl (Z.land b0 0x07) 18)
              (Z.lor (Z.shiftl (Z.land b1 0x3F) 12)
                 (Z.lor (Z.shiftl (Z.land b2 0x3F) 6) (Z.land b3 0x3F)))
            :: code_points rest
        | _ => b0 :: code_points rest
        end
  end.

Definition ord_list (s : string) : list Z :=
  code_points ((λ c, Z.of_N (N_of_ascii c)) <$> list_ascii_of_string s).

Definition chr (n : Z) : string := String (ascii_of_N (Z.to_N n)) EmptyString.

Definition hex_digit (n : Z) : string :=
  if n <? 10 then chr (48 + n) else chr (97 + (n - 10)).

(** ['{0:04x}'.format(n)] for [n < 0x10000] *)
Definition hex4 (n : Z) : string :=
  hex_digit (Z.land (Z.shiftr n 12) 0xF) +:+ hex_digit (Z.land (Z.shiftr n 8) 0xF)
  +:+ hex_digit (Z.land (Z.shiftr n 4) 0xF) +:+ hex_digit (Z.land n 0xF).

(** The replacement of one code point in [py_encode_basestring_ascii]. *)
Definition escape_ascii (n : Z) : string :=
  if n =? 0x5C then bs +:+ bs
  else if n =? 0x22 then bs +:+ dq
  else if n =? 0x08 then bs +:+ "b"
  else if n =? 0x0C then bs +:+ "f"
  else if n =? 0x0A then bs +:+ "n"
  else if n =? 0x0D then bs +:+ "r"
  else if n =? 0x09 then bs +:+ "t"
  else if (0x20 <=? n) && (n <=? 0x7E) then chr n
  else if n <? 0x10000 then bs +:+ "u" +:+ hex4 n
  else
    let n := n - 0x10000 in
    let s1 := Z.lor 0xD800 (Z.land (Z.shiftr n 10) 0x3FF) in
    let s2 := Z.lor 0xDC00 (Z.land n 0x3FF) in
    bs +:+ "u" +:+ hex4 s1 +:+ bs +:+ "u" +:+ hex4 s2.

Definition str_join (chunks : list string) : string :=
  foldr String.append EmptyString chunks.

Definition encode_basestring_ascii (s : string) : string :=
  dq +:+ str_join (escape_ascii <$> ord_list s) +:+ dq.

Definition intstr (n : Z) : string := pretty n.

Definition floatstr `{Externals} (o : spec_float) : string :=
  match o with
  | S754_nan => "NaN"
  | S754_infinity false => "Infinity"
  | S754_infinity true => "-Infinity"
  | _ => float_repr o
  end.

Definition _indent : string := "  ".

Definition newline_indent_at (_current_indent_level : nat) : string :=
  nl +:+ str_repeat _current_indent_level _indent.

(** The text of a value the loops of the encoder write in one piece. *)
Definition encode_scalar `{Externals} (value : pyval) : option string :=
  match value with
  | PStr s => Some (encode_basestring_ascii s)
  | PNone => Some "null"
  | PBool true => Some "true"
  | PBool false => Some "false"
  | PInt n => Some (intstr n)
  | PFloat x => Some (floatstr x)
  | PList _ | PDict _ => None
  end.

(** The string a dictionary key is written as. *)
Definition encode_key (key : pykey) : string :=
  match key with
  | KStr s => s
  | KInt n => intstr n
  end.

(** The loop of [_iterencode_list] over the items: [buf] starts as the
    opening bracket with the first line break and is the separator from the
    second item on; [encode] is [_iterencode] at the level of the items. *)
Definition _iterencode_list_loop `{Externals} (encode : pyval → list string)
    (separator : string) : list pyval → string → list string :=
  fix loop (lst : list pyval) (buf : string) : list string :=
    match lst with
    | [] => []
    | value :: lst =>
        match encode_scalar value with
        | Some text => [buf +:+ text]
        | None => buf :: encode value
        end ++ loop lst separator
    end.

(** The loop of [_iterencode_dict] over the items: [first] decides whether
    the separator is yielded before the key. *)
Definition _iterencode_dict_loop `{Externals} (encode : pyval → list string)
    (item_separator : string) : list (pykey * pyval) → bool → list string :=
  fix loop (items : list (pykey * pyval)) (first : bool) : list string :=
    match items with
    | [] => []
    | (key, value) :: items =>
        (if first then [] else [item_separator])
        ++ [encode_basestring_ascii (encode_key key); ": "]
        ++ match encode_scalar value with
           | Some text => [text]
           | None => encode value
           end
        ++ loop items false
    end.

(** [_iterencode], with [_iterencode_list] and [_iterencode_dict]. *)
Fixpoint _iterencode `{Externals} (o : pyval) (_current_indent_level : nat) : list string :=
  match o with
  | PList [] => ["[]"]
  | PList lst =>
      let level := S _current_indent_level in
      let newline_indent := newline_indent_at level in
      let separator := "," +:+ newline_indent in
      _iterencode_list_loop (λ value, _iterencode value level) separator
        lst ("[" +:+ newline_indent)
      ++ [newline_indent_at _current_indent_level; "]"]
  | PDict [] => ["{}"]
  | PDict dct =>
      let level := S _current_indent_level in
      let newline_indent := newline_indent_at level in
      let item_separator := "," +:+ newline_indent in
      ["{"; newline_indent]
      ++ _iterencode_dict_loop (λ value, _iterencode value level) item_separator
           dct true
      ++ [newline_indent_at _current_indent_level; "}"]
  | _ =>
      match encode_scalar o with
      | Some text => [text]
      | None => []
      end
  end.

(** [JSONEncoder.encode] *)
Definition json_dumps `{Externals} (o : pyval) : string :=
  match o with
  | PStr s => encode_basestring_ascii s
  | _ => str_join (_iterencode o 0)
  end.


(** ** The registry of fields: [COLUMNS] *)

(** One entry of [COLUMNS].  The entry has no ['transform'] where the list
    gives none, and no ['combo'] until [CustomColumnsLayout] stores the
    control of the field in it. *)
Record field : Type := Field {
  name : string;
  label : string;
  tooltip : string;
  type : string;
  sidecar_property : list string;
  transform : option (pyval → result pyval);
  combo : option CustomColumnComboBox
}.

(** [column['combo'] = c] *)
Definition set_combo (c : CustomColumnComboBox) (column : field) : field :=
  {| name := name column; label := label column; tooltip := tooltip column;
     type := type column; sidecar_property := sidecar_property column;
     transform := transform column; combo := Some c |}.

Section registry.
Context `{Externals}.

Definition COLUMNS : list field := [
    {| name := "column_percent_read";
       label := "Percent read column (float):";
       tooltip := "A “Floating point numbers” column to store the current
percent read, with “Format for numbers” set to `{:.0%}`.";
       type := "float";
       sidecar_property := ["percent_finished"];
       transform := Some (λ value, x ← float_ value; Ok (PFloat x));
       combo := None |};
    {| name := "column_percent_read_int";
       label := "Percent read column (int):";
       tooltip := "An “Integers” column to store the current percent read.";
       type := "int";
       sidecar_property := ["percent_finished"];
       transform := Some (λ value,
         x ← float_ value;
         n ← math_floor (float_mul x (float_of_int 100));
         Ok (PInt n));
       combo := None |};
    {| name := "column_last_read_location";
       label := "Last read location column:";
       tooltip := "A regular “Text” column to store the location you last
stopped reading at.";
       type := "text";
       sidecar_property := ["last_xpointer"];
       transform := None;
       combo := None |};
    {| name := "column_rating";
       label := "Rating column:";
       tooltip := "A “Rating” column to store your rating of the book,
as entered on the book’s status page.";
       type := "rating";
       sidecar_property := ["summary"; "rating"];
       transform := Some (λ value, py_mul_int value 2);
       combo := None |};
    {| name := "column_review";
       label := "Review column:";
       tooltip := "A “Long text” column to store your review of the book,
as entered on the book’s status page.";
       type := "comments";
       sidecar_property := ["summary"; "note"];
       transform := None;
       combo := None |};
    {| name := "column_status";
       label := "Reading status column:";
       tooltip := "A regular “Text” column to store the reading status of the
book, as entered on the book status page (“Finished”,
“Reading”, “On hold”).";
       type := "text";
       sidecar_property := ["summary"; "status"];
       transform := None;
       combo := None |};
    {| name := "column_date_status_modified";
       label := "Status modified date column:";
       tooltip := "A “Date” column to store the date on which the book’s status
was last modified. (This is probably the date on which you
marked it as read.)";
       type := "datetime";
       sidecar_property := ["summary"; "modified"];
       transform := None;
       combo := None |};
    {| name := "column_bookmarks";
       label := "Bookmarks column";
       tooltip := "A “Long text” column to store your bookmarks.";
       type := "comments";
       sidecar_property := ["bookmarks"];
       transform := Some clean_bookmarks;
       combo := None |};
    {| name := "column_md5";
       label := "MD5 hash column:";
       tooltip := "A regular “Text” column to store the MD5 hash KOReader uses
to sync progress to a KOReader Sync Server. (“Progress sync”
in the KOReader app.) This might allow for syncing progress
to calibre without having to connect your KOReader device,
in the future.";
       type := "text";
       sidecar_property := ["partial_md5_checksum"];
       transform := None;
       combo := None |};
    {| name := "column_sidecar";
       label := "Raw sidecar column:";
       tooltip := "A “Long text” column to store the raw contents of the
metadata sidecar, with “Interpret this column as” set to
“Plain text”.";
       type := "comments";
       sidecar_property := [];
       transform := Some (λ value, Ok (PStr (json_dumps value)));
       combo := None |}
].

End registry.

(** The names of the fields of a registry, in its order. *)
Definition field_names (columns : list field) : list string := name <$> columns.

(** ** The persisted configuration: [CONFIG]

    calibre's [JSONConfig]: a dictionary whose lookup falls back on its
    [defaults].  The values the plug-in keeps in it are strings. *)
Record JSONConfig : Type := Config {
  data : gmap string string;
  defaults : gmap string string
}.

(** [CONFIG[key]] *)
Definition config_getitem (key : string) (config : JSONConfig) : result string :=
  match data config !! key with
  | Some v => Ok v
  | None => from_option KeyError (defaults config !! key)
  end.

(** [CONFIG[key] = value] *)
Definition config_setitem (key value : string) (config : JSONConfig) : JSONConfig :=
  {| data := <[key := value]> (data config); defaults := defaults config |}.

(** [CONFIG.defaults[key] = value] *)
Definition config_set_default (key value : string) (config : JSONConfig) : JSONConfig :=
  {| data := data config; defaults := <[key := value]> (defaults config) |}.

(** The module-level set-up of [CONFIG] from what the settings file holds:
    every field of the registry defaults to the empty string. *)
Definition CONFIG (columns : list field) (stored : gmap string string) : JSONConfig :=
  foldl (λ config column, config_set_default (name column) EmptyString config)
    {| data := stored; defaults := ∅ |} columns.

(** ** [CustomColumnsLayout.__init__] and [ConfigWidget.save_settings] *)

(** The loop of [CustomColumnsLayout.__init__] over the registry: every
    entry gets its control, populated from the columns of its type and from
    the persisted selection. *)
Fixpoint layout_loop (available : gmap string (gmap string column))
    (config : JSONConfig) (columns : list field) : result (list field) :=
  match columns with
  | [] => Ok []
  | column :: columns =>
      custom_columns ← from_option KeyError (available !! type column);
      selected_column ← config_getitem (name column) config;
      c ← new_combo custom_columns selected_column;
      columns ← layout_loop available config columns;
      Ok (set_combo c column :: columns)
  end.

Definition CustomColumnsLayout (model : Calibre.library_model)
    (config : JSONConfig) (columns : list field) : result (list field) :=
  layout_loop (available_columns model) config columns.

(** The user picks the option at [index] in the control of the field
    [field_name]. *)
Definition choose (field_name : string) (index : Z) (columns : list field) : list field :=
  (λ column,
     match combo column with
     | Some c =>
         if decide (name column = field_name)
         then set_combo (setCurrentIndex index c) column
         else column
     | None => column
     end) <$> columns.

Fixpoint save_settings (columns : list field) (config : JSONConfig) : result JSONConfig :=
  match columns with
  | [] => Ok config
  | column :: columns =>
      c ← from_option KeyError (combo column);
      selected ← get_selected_column c;
      save_settings columns (config_setitem (name column) selected config)
  end.

(** ** Vocabulary of the statements *)

(** The text of the option that stands for the column under [key]. *)
Definition option_text (custom_columns : gmap string column)
    (key text : string) : Prop :=
  ∃ c, custom_columns !! key = Some c
       ∧ text = column_name c +:+ " (" +:+ key +:+ ")".

(** A session of the user with the open editor: a sequence of choices,
    each of an index in the control of a field. *)
Definition interact (choices : list (string * Z)) (columns : list field) : list field :=
  foldl (λ columns choice, choose choice.1 choice.2 columns) columns choices.

(** The control of the field [field_name] in a registry. *)
Definition combo_of (field_name : string) (columns : list field)
    : option CustomColumnComboBox :=
  column ← list_find (λ column, name column = field_name) columns;
  combo column.2.

(** A control populated from [avail]: one key per option, the empty key
    first, and a current index that is an option or Qt's [-1]. *)
Definition combo_ok (avail : gmap string column) (c : CustomColumnComboBox) : Prop :=
  column_names c = EmptyString :: sorted (keys avail)
  ∧ length (items c) = length (column_names c)
  ∧ -1 ≤ currentIndex c < count c.

(** A registry [columns] that is [columns0] with a populated control in
    every entry. *)
Definition editor_ok (available : gmap string (gmap string column))
    (columns0 columns : list field) : Prop :=
  Forall2 (λ f0 f,
    name f = name f0 ∧ type f = type f0
    ∧ ∃ avail c, available !! type f0 = Some avail
                 ∧ combo f = Some c ∧ combo_ok avail c) columns0 columns.

(** ** A small library to run the definitions on *)

Definition example_externals : Externals :=
  {| clean_bookmarks := λ value, Ok value;
     float_of_str := λ _, Raise ValueError;
     float_repr := λ _, "0.0" |}.

(** Two rating columns, one of them multi-valued, and a text column. *)
Definition example_model : Calibre.library_model :=
  Calibre.LibraryModel
    (<["#stars" := Calibre.CustomColumn "rating" false "Stars"]>
     (<["#votes" := Calibre.CustomColumn "rating" true "Votes"]>
     (<["#where" := Calibre.CustomColumn "text" false "Location"]> ∅)))
    "Rating".

(** The float that the literal [1.0] denotes, and the largest float below
    it. *)
Definition float_1_0 : spec_float := S754_finite false 4503599627370496 (-52).
Definition float_below_1 : spec_float := S754_finite false 9007199254740991 (-53).

(** The entry of [column_rating] in the registry. *)
Definition example_field : field :=
  nth 3 (@COLUMNS example_externals)
    (Field EmptyString EmptyString EmptyString EmptyString [] None None).

(** * Properties *)

(** ** The order on strings and [sorted] *)

Lemma ascii_compare_refl (a : ascii) : Ascii.compare a a = Eq.
Proof. unfold Ascii.compare. apply N.compare_refl. Qed.

Lemma ascii_compare_lt_trans (a b c : ascii) :
  Ascii.compare a b = Lt → Ascii.compare b c = Lt → Ascii.compare a c = Lt.
Proof.
  unfold Ascii.compare. rewrite !N.compare_lt_iff. apply N.lt_trans.
Qed.

Lemma str_compare_lt_trans (s1 s2 s3 : string) :
  String.compare s1 s2 = Lt → String.compare s2 s3 = Lt → String.compare s1 s3 = Lt.
Proof.
  revert s2 s3. induction s1 as [|a s1 IH]; intros [|b s2] [|c s3]; simpl; try done.
  destruct (Ascii.compare a b) eqn:Hab; try done.
  - apply Ascii.compare_eq_iff in Hab as ->.
    destruct (Ascii.compare b c) eqn:Hbc; try done. apply IH.
  - destruct (Ascii.compare b c) eqn:Hbc; try done.
    + apply Ascii.compare_eq_iff in Hbc as ->. by rewrite Hab.
    + by rewrite (ascii_compare_lt_trans a b c).
Qed.

Lemma str_le_compare (s1 s2 : string) :
  str_le s1 s2 ↔ s1 = s2 ∨ String.compare s1 s2 = Lt.
Proof.
  unfold str_le, String.leb. split.
  - destruct (String.compare s1 s2) eqn:Hc; try done; auto.
    apply String.compare_eq_iff in Hc. auto.
  - intros [-> | ->]; [|done].
    assert (String.compare s2 s2 = Eq) as ->; [|done].
    induction s2 as [|a s IH]; simpl; [done|]. by rewrite ascii_compare_refl.
Qed.

#[global] Instance str_le_total : Total str_le.
Proof. intros s1 s2. apply String.leb_total. Qed.

#[global] Instance str_le_antisym : AntiSymm (=) str_le.
Proof. intros s1 s2. apply String.leb_antisym. Qed.

#[global] Instance str_le_trans : Transitive str_le.
Proof.
  intros s1 s2 s3. rewrite !str_le_compare.
  intros [-> | H12] [-> | H23]; eauto using str_compare_lt_trans.
Qed.

Lemma sorted_Sorted (xs : list string) : Sorted str_le (sorted xs).
Proof. apply (Sorted_merge_sort str_le). Qed.

Lemma sorted_Permutation (xs : list string) : sorted xs ≡ₚ xs.
Proof. apply (merge_sort_Permutation str_le). Qed.

(** Whatever algorithm [sorted] runs, its result is this list: the
    ascending arrangement of a list of strings is unique. *)
Lemma sorted_unique (xs ys : list string) :
  Sorted str_le ys → ys ≡ₚ xs → ys = sorted xs.
Proof.
  intros Hs Hp. apply (Sorted_unique str_le); [done|apply sorted_Sorted|].
  by rewrite Hp, sorted_Permutation.
Qed.

Lemma elem_of_keys (m : gmap string column) (k : string) :
  k ∈ keys m ↔ is_Some (m !! k).
Proof.
  unfold keys. rewrite list_elem_of_fmap. split.
  - intros [[k' c] [-> Hin]]. apply elem_of_map_to_list in Hin. eauto.
  - intros [c Hc]. exists (k, c). split; [done|]. by apply elem_of_map_to_list.
Qed.

Lemma NoDup_keys (m : gmap string column) : NoDup (keys m).
Proof. apply NoDup_fst_map_to_list. Qed.

Lemma elem_of_sorted_keys (m : gmap string column) (k : string) :
  k ∈ sorted (keys m) ↔ is_Some (m !! k).
Proof. by rewrite sorted_Permutation, elem_of_keys. Qed.

Lemma NoDup_sorted_keys (m : gmap string column) : NoDup (sorted (keys m)).
Proof. rewrite sorted_Permutation. apply NoDup_keys. Qed.

(** ** The columns a field can be mapped to *)

Lemma get_custom_columns_filter (model : Calibre.library_model)
    (column_types : list string) :
  get_custom_columns model column_types
  = Custom <$> filter (eligible column_types) (Calibre.custom_columns model).
Proof.
  unfold get_custom_columns.
  apply (map_fold_weak_ind (λ r m, r = Custom <$> filter (eligible column_types) m)).
  - by rewrite map_filter_empty, fmap_empty.
  - intros key c m r Hm ->. unfold get_custom_columns_step.
    rewrite map_filter_insert, (delete_id m key) by done.
    destruct (decide (eligible column_types (key, c))) as [[Ht Hm']|Hne]; simpl in *.
    + rewrite bool_decide_eq_true_2, Hm' by done. simpl. by rewrite fmap_insert.
    + destruct (bool_decide_reflect (Calibre.datatype c ∈ column_types)) as [Ht|]; [|done].
      destruct (Calibre.is_multiple c) eqn:Hmul; [done|].
      destruct Hne. by split.
Qed.

Lemma get_custom_columns_lookup (model : Calibre.library_model)
    (column_types : list string) (key : string) (col : column) :
  get_custom_columns model column_types !! key = Some col
  ↔ ∃ c, col = Custom c
       ∧ Calibre.custom_columns model !! key = Some c
       ∧ Calibre.datatype c ∈ column_types
       ∧ Calibre.is_multiple c = false.
Proof.
  rewrite get_custom_columns_filter, lookup_fmap, fmap_Some. split.
  - intros (c & Hc & ->). apply map_lookup_filter_Some in Hc as [Hc [Ht Hm]].
    by exists c.
  - intros (c & -> & Hc & Ht & Hm). exists c. split; [|done].
    by apply map_lookup_filter_Some.
Qed.

Lemma available_columns_lookup (model : Calibre.library_model)
    (ty : string) (avail : gmap string column) :
  available_columns model !! ty = Some avail →
  (ty = "rating" ∧ avail = get_rating_columns model)
  ∨ (ty ∈ ["text"; "int"; "float"; "datetime"; "comments"]
     ∧ avail = get_custom_columns model [ty]).
Proof.
  unfold available_columns. intros Hl.
  repeat (apply lookup_insert_Some in Hl as [[<- <-]|[_ Hl]];
    [first [left; done | right; split; [set_solver|done]]|]).
  by rewrite lookup_empty in Hl.
Qed.

(** C4. [get_custom_columns] returns exactly the custom columns of the host
    whose data type is in the requested list and which are not
    multi-valued, under their keys; so a custom column offered for any type
    of field, the rating bucket included, is never multi-valued. *)
Theorem get_custom_columns_exact (model : Calibre.library_model)
    (column_types : list string) :
  (∀ key col,
     get_custom_columns model column_types !! key = Some col
     ↔ ∃ c, col = Custom c
          ∧ Calibre.custom_columns model !! key = Some c
          ∧ Calibre.datatype c ∈ column_types
          ∧ Calibre.is_multiple c = false)
  ∧ (∀ ty avail key c,
       available_columns model !! ty = Some avail →
       avail !! key = Some (Custom c) →
       Calibre.custom_columns model !! key = Some c
       ∧ Calibre.datatype c = ty
       ∧ Calibre.is_multiple c = false).
Proof.
  split; [apply get_custom_columns_lookup|].
  intros ty avail key c Hav Hkey.
  apply available_columns_lookup in Hav as [[-> ->]|[_ ->]].
  - unfold get_rating_columns in Hkey.
    apply lookup_insert_Some in Hkey as [[_ ?]|[_ Hkey]]; [done|].
    apply get_custom_columns_lookup in Hkey as (c' & [= <-] & ? & Ht & ?).
    apply list_elem_of_singleton in Ht. done.
  - apply get_custom_columns_lookup in Hkey as (c' & [= <-] & ? & Ht & ?).
    apply list_elem_of_singleton in Ht. done.
Qed.

(** C5. [get_rating_columns] is the dictionary of the custom rating columns
    that are not multi-valued, with the built-in rating column put under the
    key ['rating']: that key is always present, it holds the synthesized
    entry even when a custom column has the same key, and the dictionary
    has exactly one entry under it. *)
Theorem get_rating_columns_union (model : Calibre.library_model) :
  get_rating_columns model !! "rating"
    = Some (Builtin (Calibre.orig_headers_rating model))
  ∧ (∀ key, key ≠ "rating" →
       get_rating_columns model !! key = get_custom_columns model ["rating"] !! key)
  ∧ dom (get_rating_columns model)
    = {["rating"]} ∪ dom (get_custom_columns model ["rating"])
  ∧ length (filter (λ kv, kv.1 = "rating") (map_to_list (get_rating_columns model)))
    = 1%nat.
Proof.
  unfold get_rating_columns. split_and!.
  - apply lookup_insert_eq.
  - intros key Hne. by apply lookup_insert_ne.
  - apply dom_insert_L.
  - set (m := <["rating" := _]> _).
    assert (NoDup (filter (λ kv : string * column, kv.1 = "rating") (map_to_list m))) as Hnd.
    { apply NoDup_filter, NoDup_map_to_list. }
    assert (∀ kv, kv ∈ filter (λ kv : string * column, kv.1 = "rating") (map_to_list m)
                  ↔ kv = ("rating", Builtin (Calibre.orig_headers_rating model))) as Hin.
    { intros [k v]. rewrite list_elem_of_filter, elem_of_map_to_list. simpl. split.
      - intros [-> Hl]. unfold m in Hl. rewrite lookup_insert_eq in Hl. congruence.
      - intros [= -> ->]. split; [done|]. apply lookup_insert_eq. }
    destruct (filter _ _) as [|kv1 [|kv2 l]].
    + exfalso. eapply not_elem_of_nil, Hin. done.
    + done.
    + exfalso. apply NoDup_cons in Hnd as [Hnotin _]. apply Hnotin.
      assert (kv1 = kv2) as ->; [|left].
      transitivity ("rating", Builtin (Calibre.orig_headers_rating model)).
      * apply Hin. left.
      * symmetry. apply Hin. right. left.
Qed.

(** ** The selection control *)

Lemma in_range_true (i n : Z) : 0 ≤ i < n → (0 <=? i) && (i <? n) = true.
Proof. intros. apply andb_true_iff. split; [apply Z.leb_le|apply Z.ltb_lt]; lia. Qed.

Lemma in_range_false (i n : Z) : ¬ (0 ≤ i < n) → (0 <=? i) && (i <? n) = false.
Proof.
  intros Hn. apply andb_false_iff.
  destruct (Z.leb_spec 0 i); [|by left]. right. apply Z.ltb_ge. lia.
Qed.

Lemma populate_combo_loop_spec (M : gmap string column) (sel : string)
    (ks : list string) (self : CustomColumnComboBox) (idx : Z) :
  (∀ k, k ∈ ks → is_Some (M !! k)) →
  ∃ self' idx' texts,
    populate_combo_loop M sel ks (self, idx) = Ok (self', idx')
    ∧ column_names self' = column_names self ++ ks
    ∧ items self' = items self ++ texts
    ∧ Forall2 (option_text M) ks texts
    ∧ (items self ≠ [] → currentIndex self' = currentIndex self)
    ∧ (sel ∉ ks → idx' = idx)
    ∧ (∀ j, NoDup ks → ks !! j = Some sel →
         idx' = Z.of_nat (length (column_names self) + j)).
Proof.
  revert self idx. induction ks as [|key ks IH]; intros self idx Hks.
  - exists self, idx, []. simpl. rewrite !app_nil_r. by split_and!.
  - destruct (Hks key) as [c Hc]; [left|].
    cbn [populate_combo_loop]. unfold populate_combo_step at 1.
    cbn [column_names set_column_names items currentIndex]. rewrite Hc. simpl.
    set (self1 := addItem _ _). set (idx1 := if decide (key = sel) then _ else _).
    destruct (IH self1 idx1) as (self' & idx' & texts & -> & Hn & Hi & Ht & Hcur & Hno & Hyes).
    { intros k Hk. apply Hks. by right. }
    exists self', idx', (format_display_name (column_name c) key :: texts).
    simpl in *. split_and!.
    + done.
    + by rewrite Hn, <- app_assoc.
    + by rewrite Hi, <- app_assoc.
    + constructor; [by exists c|done].
    + intros Hne. rewrite Hcur by (by destruct (items self)).
      by destruct (decide (items self = [])).
    + intros Hnotin. apply not_elem_of_cons in Hnotin as [Hne Hnotin].
      rewrite Hno by done. unfold idx1. by rewrite decide_False.
    + intros j Hnd Hj. apply NoDup_cons in Hnd as [Hnotin Hnd].
      destruct j as [|j]; simpl in Hj.
      * injection Hj as ->. rewrite Hno by done. unfold idx1.
        rewrite decide_True by done. rewrite length_app. simpl. lia.
      * rewrite (Hyes j) by done. rewrite length_app. simpl. lia.
Qed.

(** What [populate_combo] leaves in the control, whatever it held. *)
Lemma populate_combo_spec (M : gmap string column) (sel : string)
    (self : CustomColumnComboBox) :
  ∃ c texts,
    populate_combo M sel self = Ok c
    ∧ column_names c = EmptyString :: sorted (keys M)
    ∧ items c = "do not sync" :: texts
    ∧ Forall2 (option_text M) (sorted (keys M)) texts
    ∧ (M !! sel = None → currentIndex c = 0)
    ∧ (∀ j, sorted (keys M) !! j = Some sel → currentIndex c = Z.of_nat (S j)).
Proof.
  unfold populate_combo.
  set (self0 := addItem _ _).
  destruct (populate_combo_loop_spec M sel (sorted (keys M)) self0 0)
    as (self' & idx' & texts & -> & Hn & Hi & Ht & _ & Hno & Hyes).
  { intros k. by rewrite elem_of_sorted_keys. }
  simpl in *. eexists _, texts. split; [done|]. simpl.
  assert (count self' = Z.of_nat (S (length (sorted (keys M))))) as Hcount.
  { unfold count. rewrite Hi. simpl. by rewrite <- (Forall2_length _ _ _ Ht). }
  split_and!; try done.
  - intros Hsel. rewrite Hno, Hcount.
    + rewrite in_range_true; [done|lia].
    + rewrite elem_of_sorted_keys, Hsel. by intros [? ?].
  - intros j Hj. rewrite (Hyes j); [|apply NoDup_sorted_keys|done].
    apply lookup_lt_Some in Hj. rewrite Hcount. rewrite in_range_true; [done|lia].
Qed.

Lemma list_ascii_of_string_app (s1 s2 : string) :
  list_ascii_of_string (s1 +:+ s2) = list_ascii_of_string s1 ++ list_ascii_of_string s2.
Proof. induction s1 as [|a s1 IH]; simpl; [done|]. by rewrite IH. Qed.

(** The text of a column option ends in a bracket: it is never the text of
    the first option. *)
Lemma format_display_name_not_first (n k : string) :
  format_display_name n k ≠ "do not sync".
Proof.
  unfold format_display_name. intros Heq.
  apply (f_equal (λ s, last (list_ascii_of_string s))) in Heq.
  rewrite !list_ascii_of_string_app in Heq. simpl in Heq.
  replace (list_ascii_of_string n ++ " "%char :: "("%char :: list_ascii_of_string k ++ [")"%char])
    with ((list_ascii_of_string n ++ " "%char :: "("%char :: list_ascii_of_string k) ++ [")"%char])
    in Heq by (by rewrite <- app_assoc).
  rewrite last_snoc in Heq. discriminate.
Qed.

(** C3. [populate_combo] leaves in the control the keys [''] followed by
    the keys of the mapping in ascending order, each once (the one
    ascending arrangement of the keys there is), and the texts
    ["do not sync"] followed, for each key in that order, by
    ["{name} ({key})"]; no other option reads ["do not sync"]. *)
Theorem populate_combo_options (custom_columns : gmap string column)
    (selected_column : string) (self : CustomColumnComboBox) :
  ∃ c ks texts,
    populate_combo custom_columns selected_column self = Ok c
    ∧ column_names c = EmptyString :: ks
    ∧ ks = sorted (keys custom_columns)
    ∧ Sorted str_le ks
    ∧ NoDup ks
    ∧ (∀ key, key ∈ ks ↔ is_Some (custom_columns !! key))
    ∧ (∀ ks', Sorted str_le ks' → ks' ≡ₚ keys custom_columns → ks' = ks)
    ∧ items c = "do not sync" :: texts
    ∧ Forall2 (option_text custom_columns) ks texts
    ∧ (∀ i, items c !! i = Some "do not sync" ↔ i = 0%nat).
Proof.
  destruct (populate_combo_spec custom_columns selected_column self)
    as (c & texts & Hpop & Hn & Hi & Ht & _).
  exists c, (sorted (keys custom_columns)), texts. split_and!; try done.
  - apply sorted_Sorted.
  - apply NoDup_sorted_keys.
  - apply elem_of_sorted_keys.
  - apply sorted_unique.
  - intros i. rewrite Hi. split; [|by intros ->].
    destruct i as [|i]; [done|]. simpl. intros Hl.
    destruct (Forall2_lookup_r _ _ _ _ _ Ht Hl) as (key & _ & col & _ & Htext).
    by destruct (format_display_name_not_first (column_name col) key).
Qed.

Lemma py_getitem_nonneg {A} (xs : list A) (i : nat) (x : A) :
  xs !! i = Some x → py_getitem xs (Z.of_nat i) = Ok x.
Proof.
  intros Hl. unfold py_getitem. apply lookup_lt_Some in Hl as Hlt.
  rewrite in_range_true by lia. by rewrite Nat2Z.id, Hl.
Qed.

(** An index from [-1] up to the length reads an item of a list that is
    not empty. *)
Lemma py_getitem_total {A} (xs : list A) (i : Z) :
  xs ≠ [] → -1 ≤ i < Z.of_nat (length xs) →
  ∃ x, py_getitem xs i = Ok x ∧ x ∈ xs.
Proof.
  intros Hne Hi. unfold py_getitem.
  destruct (decide (0 ≤ i)) as [Hpos|Hneg].
  - rewrite in_range_true by lia.
    destruct (lookup_lt_is_Some_2 xs (Z.to_nat i)) as [x Hx]; [lia|].
    rewrite Hx. exists x. split; [done|]. by eapply list_elem_of_lookup_2.
  - rewrite in_range_false by lia. assert (i = -1) as -> by lia.
    assert (0 < length xs)%nat by (destruct xs; [done|simpl; lia]).
    assert ((- Z.of_nat (length xs) <=? -1) && (-1 <? 0) = true) as ->.
    { apply andb_true_iff. split; [apply Z.leb_le; lia|done]. }
    destruct (lookup_lt_is_Some_2 xs (Z.to_nat (Z.of_nat (length xs) + -1))) as [x Hx]; [lia|].
    rewrite Hx. exists x. split; [done|]. by eapply list_elem_of_lookup_2.
Qed.

(** ** The editor *)

Lemma populate_combo_ok (avail : gmap string column) (sel : string)
    (self : CustomColumnComboBox) :
  ∃ c texts,
    populate_combo avail sel self = Ok c
    ∧ combo_ok avail c
    ∧ items c = "do not sync" :: texts
    ∧ Forall2 (option_text avail) (sorted (keys avail)) texts
    ∧ (avail !! sel = None → currentIndex c = 0)
    ∧ (∀ j, sorted (keys avail) !! j = Some sel → currentIndex c = Z.of_nat (S j)).
Proof.
  destruct (populate_combo_spec avail sel self)
    as (c & texts & -> & Hn & Hi & Ht & Hno & Hyes).
  exists c, texts. split_and!; try done.
  assert (length (items c) = length (column_names c)) as Hlen.
  { rewrite Hn, Hi. simpl. by rewrite (Forall2_length _ _ _ Ht). }
  unfold combo_ok, count. rewrite Hlen, Hn. simpl. split_and!; try done.
  - destruct (avail !! sel) as [col|] eqn:Hsel; [|rewrite Hno by done; lia].
    assert (sel ∈ sorted (keys avail)) as Hin by (apply elem_of_sorted_keys; eauto).
    apply list_elem_of_lookup_1 in Hin as [j Hj]. rewrite (Hyes j Hj). lia.
  - destruct (avail !! sel) as [col|] eqn:Hsel; [|rewrite Hno by done; lia].
    assert (sel ∈ sorted (keys avail)) as Hin by (apply elem_of_sorted_keys; eauto).
    apply list_elem_of_lookup_1 in Hin as [j Hj]. rewrite (Hyes j Hj).
    apply lookup_lt_Some in Hj. lia.
Qed.

Lemma new_combo_ok (avail : gmap string column) (sel : string) :
  ∃ c texts,
    new_combo avail sel = Ok c
    ∧ combo_ok avail c
    ∧ items c = "do not sync" :: texts
    ∧ Forall2 (option_text avail) (sorted (keys avail)) texts
    ∧ (avail !! sel = None → currentIndex c = 0)
    ∧ (∀ j, sorted (keys avail) !! j = Some sel → currentIndex c = Z.of_nat (S j)).
Proof. apply populate_combo_ok. Qed.

Lemma get_selected_column_ok (avail : gmap string column) (c : CustomColumnComboBox) :
  combo_ok avail c →
  ∃ k, get_selected_column c = Ok k
       ∧ (k = EmptyString ∨ is_Some (avail !! k)).
Proof.
  intros (Hn & Hlen & Hidx). unfold get_selected_column.
  destruct (py_getitem_total (column_names c) (currentIndex c)) as (k & -> & Hk).
  - by rewrite Hn.
  - unfold count in Hidx. by rewrite <- Hlen.
  - exists k. split; [done|]. rewrite Hn in Hk.
    apply elem_of_cons in Hk as [->|Hk]; [by left|right].
    by apply elem_of_sorted_keys.
Qed.

Lemma setCurrentIndex_ok (avail : gmap string column) (c : CustomColumnComboBox) (i : Z) :
  combo_ok avail c → combo_ok avail (setCurrentIndex i c).
Proof.
  intros (Hn & Hlen & Hidx). unfold combo_ok, count in *. simpl.
  split_and!; try done;
    (destruct (decide (0 ≤ i < Z.of_nat (length (items c))));
      [rewrite in_range_true by done|rewrite in_range_false by done]; lia).
Qed.

Lemma set_defaults_spec (columns : list field) (config : JSONConfig) :
  let config' := foldl (λ config column,
    config_set_default (name column) EmptyString config) config columns in
  data config' = data config
  ∧ (∀ n, is_Some (defaults config !! n) → is_Some (defaults config' !! n))
  ∧ (∀ f, f ∈ columns → is_Some (defaults config' !! name f)).
Proof.
  revert config. induction columns as [|f columns IH]; intros config; simpl.
  - split_and!; try done. intros f Hf. by apply elem_of_nil in Hf.
  - destruct (IH (config_set_default (name f) EmptyString config)) as (Hd & Hkeep & Hall).
    simpl in *. split_and!; try done.
    + intros n Hn. apply Hkeep. destruct (decide (name f = n)) as [->|Hne].
      * rewrite lookup_insert_eq. eauto.
      * by rewrite lookup_insert_ne.
    + intros f' Hf'. apply elem_of_cons in Hf' as [->|Hf']; [|by apply Hall].
      apply Hkeep. rewrite lookup_insert_eq. eauto.
Qed.

(** A configuration that has a default for every field of a registry. *)
Lemma CONFIG_spec (columns : list field) (stored : gmap string string) :
  data (CONFIG columns stored) = stored
  ∧ ∀ f, f ∈ columns → is_Some (defaults (CONFIG columns stored) !! name f).
Proof.
  unfold CONFIG.
  destruct (set_defaults_spec columns {| data := stored; defaults := ∅ |}) as (Hd & _ & Hall).
  by split.
Qed.

Lemma config_getitem_total (config : JSONConfig) (n : string) :
  is_Some (defaults config !! n) →
  ∃ v, config_getitem n config = Ok v
       ∧ (∀ w, data config !! n = Some w → v = w).
Proof.
  intros [d Hd]. unfold config_getitem.
  destruct (data config !! n) as [w|] eqn:Hw.
  - exists w. split; [done|]. by intros ? [= ->].
  - rewrite Hd. by exists d.
Qed.

Lemma layout_loop_spec (available : gmap string (gmap string column))
    (config : JSONConfig) (columns0 : list field) :
  (∀ f, f ∈ columns0 →
     is_Some (available !! type f) ∧ is_Some (defaults config !! name f)) →
  ∃ columns,
    layout_loop available config columns0 = Ok columns
    ∧ Forall2 (λ f0 f, ∃ avail sel c,
        available !! type f0 = Some avail
        ∧ config_getitem (name f0) config = Ok sel
        ∧ new_combo avail sel = Ok c
        ∧ f = set_combo c f0) columns0 columns.
Proof.
  induction columns0 as [|f0 columns0 IH]; intros Hall.
  - by exists [].
  - destruct (Hall f0) as [[avail Hav] Hdef]; [left|].
    destruct (config_getitem_total config (name f0) Hdef) as (sel & Hsel & _).
    destruct (new_combo_ok avail sel) as (c & texts & Hc & _).
    destruct IH as (columns & Hloop & Hrel).
    { intros f Hf. apply Hall. by right. }
    exists (set_combo c f0 :: columns). simpl.
    rewrite Hav, Hsel. simpl. rewrite Hc. simpl. rewrite Hloop. simpl.
    split; [done|]. constructor; [|done]. by exists avail, sel, c.
Qed.

Lemma layout_loop_editor_ok (available : gmap string (gmap string column))
    (config : JSONConfig) (columns0 columns : list field) :
  layout_loop available config columns0 = Ok columns →
  (∀ f, f ∈ columns0 →
     is_Some (available !! type f) ∧ is_Some (defaults config !! name f)) →
  editor_ok available columns0 columns.
Proof.
  intros Hloop Hall.
  destruct (layout_loop_spec available config columns0 Hall) as (columns' & Hloop' & Hrel).
  rewrite Hloop in Hloop'. injection Hloop' as <-.
  eapply Forall2_impl; [exact Hrel|]. simpl.
  intros f0 f (avail & sel & c & Hav & _ & Hc & ->). split_and!; try done.
  exists avail, c. split_and!; try done.
  destruct (new_combo_ok avail sel) as (c' & texts & Hc' & Hok & _). congruence.
Qed.

Lemma choose_editor_ok (available : gmap string (gmap string column))
    (columns0 columns : list field) (n : string) (i : Z) :
  editor_ok available columns0 columns →
  editor_ok available columns0 (choose n i columns).
Proof.
  unfold editor_ok, choose. intros Hok. apply Forall2_fmap_r.
  eapply Forall2_impl; [exact Hok|]. simpl.
  intros f0 f (Hname & Htype & avail & c & Hav & Hc & Hcok). rewrite Hc.
  destruct (decide (name f = n)); simpl; split_and!; try done.
  - exists avail, (setCurrentIndex i c). split_and!; try done.
    by apply setCurrentIndex_ok.
  - by exists avail, c.
Qed.

Lemma interact_editor_ok (available : gmap string (gmap string column))
    (columns0 columns : list field) (choices : list (string * Z)) :
  editor_ok available columns0 columns →
  editor_ok available columns0 (interact choices columns).
Proof.
  unfold interact. revert columns.
  induction choices as [|[n i] choices IH]; intros columns Hok; simpl; [done|].
  by apply IH, choose_editor_ok.
Qed.

Lemma editor_ok_names (available : gmap string (gmap string column))
    (columns0 columns : list field) :
  editor_ok available columns0 columns → field_names columns = field_names columns0.
Proof.
  unfold field_names. induction 1 as [|f0 f ?? (Hn & _) _ IH]; [done|].
  rewrite !fmap_cons. by rewrite Hn, IH.
Qed.

Lemma save_settings_spec (columns : list field) (config : JSONConfig) :
  NoDup (field_names columns) →
  Forall (λ f, ∃ c k, combo f = Some c ∧ get_selected_column c = Ok k) columns →
  ∃ config',
    save_settings columns config = Ok config'
    ∧ defaults config' = defaults config
    ∧ (∀ f c, f ∈ columns → combo f = Some c →
         ∃ k, get_selected_column c = Ok k ∧ data config' !! name f = Some k)
    ∧ (∀ key, key ∉ field_names columns → data config' !! key = data config !! key).
Proof.
  unfold field_names. revert config.
  induction columns as [|f columns IH]; intros config Hnd Hall.
  - exists config. simpl. split_and!; try done. intros f c Hf. by apply elem_of_nil in Hf.
  - rewrite fmap_cons in Hnd. apply NoDup_cons in Hnd as [Hfresh Hnd].
    apply Forall_cons in Hall as [(c & k & Hc & Hk) Hall].
    destruct (IH (config_setitem (name f) k config) Hnd Hall)
      as (config' & Hsave & Hdef & Hset & Hframe).
    exists config'. simpl. rewrite Hc. simpl. rewrite Hk. simpl.
    split_and!; try done.
    + intros f' c' Hf' Hc'. apply elem_of_cons in Hf' as [->|Hf']; [|by eapply Hset].
      assert (c' = c) as -> by congruence. exists k. split; [done|].
      rewrite Hframe by done. simpl. apply lookup_insert_eq.
    + intros key Hkey.
      apply not_elem_of_cons in Hkey as [Hne Hkey].
      rewrite Hframe by done. simpl. by apply lookup_insert_ne.
Qed.

Lemma editor_ok_selected (available : gmap string (gmap string column))
    (columns0 columns : list field) :
  editor_ok available columns0 columns →
  Forall (λ f, ∃ c k, combo f = Some c ∧ get_selected_column c = Ok k) columns.
Proof.
  induction 1 as [|f0 f ?? (_ & _ & avail & c & _ & Hc & Hcok) _ IH]; constructor; [|done].
  destruct (get_selected_column_ok avail c Hcok) as (k & Hk & _). by exists c, k.
Qed.

Section registry_facts.
Context `{Externals}.

Lemma field_names_COLUMNS :
  field_names COLUMNS
  = ["column_percent_read"; "column_percent_read_int"; "column_last_read_location";
     "column_rating"; "column_review"; "column_status";
     "column_date_status_modified"; "column_bookmarks"; "column_md5";
     "column_sidecar"].
Proof. reflexivity. Qed.

(** The names of the registry are unique. *)
Lemma NoDup_field_names_COLUMNS : NoDup (field_names COLUMNS).
Proof.
  rewrite field_names_COLUMNS.
  apply (bool_decide_unpack _). by vm_compute.
Qed.

(** Every entry of the registry has one of the six types the layout
    enumerates the columns of. *)
Lemma COLUMNS_types (model : Calibre.library_model) (f : field) :
  f ∈ COLUMNS → is_Some (available_columns model !! type f).
Proof.
  unfold COLUMNS. intros Hf.
  repeat (apply elem_of_cons in Hf as [->|Hf]; [simpl; unfold available_columns;
    repeat (first [rewrite lookup_insert_eq; by eexists | rewrite lookup_insert_ne by done])|]).
  by apply elem_of_nil in Hf.
Qed.

(** Opening the editor on the registry never fails, whatever the host's
    columns and the stored configuration are. *)
Lemma CustomColumnsLayout_ok (model : Calibre.library_model) (config : JSONConfig) :
  (∀ f, f ∈ COLUMNS → is_Some (defaults config !! name f)) →
  ∃ columns,
    CustomColumnsLayout model config COLUMNS = Ok columns
    ∧ editor_ok (available_columns model) COLUMNS columns.
Proof.
  intros Hdef. unfold CustomColumnsLayout.
  assert (∀ f, f ∈ COLUMNS →
    is_Some (available_columns model !! type f) ∧ is_Some (defaults config !! name f)) as Hall.
  { intros f Hf. split; [by apply COLUMNS_types|by apply Hdef]. }
  destruct (layout_loop_spec _ config COLUMNS Hall) as (columns & Hloop & _).
  exists columns. split; [done|]. by eapply layout_loop_editor_ok.
Qed.

End registry_facts.

Lemma editor_ok_field (available : gmap string (gmap string column))
    (columns0 columns : list field) (f0 : field) :
  editor_ok available columns0 columns → f0 ∈ columns0 →
  ∃ f avail c,
    f ∈ columns ∧ name f = name f0 ∧ type f = type f0
    ∧ available !! type f0 = Some avail ∧ combo f = Some c ∧ combo_ok avail c.
Proof.
  intros Hok Hf0. apply list_elem_of_lookup_1 in Hf0 as [i Hi].
  destruct (Forall2_lookup_l _ _ _ _ _ Hok Hi) as (f & Hf & Hn & Ht & avail & c & Hav & Hc & Hcok).
  exists f, avail, c. split_and!; try done. by eapply list_elem_of_lookup_2.
Qed.

(** C9. Saving writes, for every field of the registry, the key of the
    option that is current in the control of the field under the name of
    the field, whatever the configuration held there; the entries under
    other keys, and the defaults, stay as they were.  This holds for every
    state the open editor can be in. *)
Theorem save_settings_overwrites `{Externals} (model : Calibre.library_model)
    (stored : gmap string string) (choices : list (string * Z))
    (config : JSONConfig) :
  ∃ columns config',
    CustomColumnsLayout model (CONFIG COLUMNS stored) COLUMNS = Ok columns
    ∧ save_settings (interact choices columns) config = Ok config'
    ∧ field_names (interact choices columns) = field_names COLUMNS
    ∧ (∀ f, f ∈ interact choices columns →
         ∃ c k, combo f = Some c
                ∧ get_selected_column c = Ok k
                ∧ data config' !! name f = Some k)
    ∧ (∀ key, key ∉ field_names COLUMNS → data config' !! key = data config !! key)
    ∧ data config' !! "column_highlights" = data config !! "column_highlights"
    ∧ defaults config' = defaults config.
Proof.
  destruct (CustomColumnsLayout_ok model (CONFIG COLUMNS stored)) as (columns & Hopen & Hok).
  { apply CONFIG_spec. }
  apply (interact_editor_ok _ _ _ choices) in Hok.
  pose proof (editor_ok_names _ _ _ Hok) as Hnames.
  pose proof (editor_ok_selected _ _ _ Hok) as Hsel.
  destruct (save_settings_spec (interact choices columns) config)
    as (config' & Hsave & Hdef & Hset & Hframe); [|done|].
  { rewrite Hnames. apply NoDup_field_names_COLUMNS. }
  exists columns, config'. split_and!; try done.
  - intros f Hf. rewrite Forall_forall in Hsel.
    destruct (Hsel f Hf) as (c & k & Hc & Hk).
    destruct (Hset f c Hf Hc) as (k' & Hk' & Hdata).
    exists c, k'. by split_and!.
  - intros key Hkey. apply Hframe. by rewrite Hnames.
  - apply Hframe. rewrite Hnames. apply (bool_decide_unpack _). by vm_compute.
Qed.

(** C10. [populate_combo] leaves one key per option, the empty key first,
    so that at every index of an option [get_selected_column] returns,
    and returns the empty key or a key of the mapping; and whatever the
    user does in the open editor, a save stores for every field the empty
    key or the key of a column that was available for the type of the
    field when the editor was populated. *)
Theorem selection_is_available_key :
  (∀ (custom_columns : gmap string column) (selected_column : string)
     (self : CustomColumnComboBox),
     ∃ c, populate_combo custom_columns selected_column self = Ok c
          ∧ length (column_names c) = length (items c)
          ∧ column_names c !! 0%nat = Some EmptyString
          ∧ 0 ≤ currentIndex c < count c
          ∧ ∀ i, 0 ≤ i < count c →
              ∃ k, get_selected_column (setCurrentIndex i c) = Ok k
                   ∧ (k = EmptyString ∨ is_Some (custom_columns !! k)))
  ∧ (∀ `{Externals} (model : Calibre.library_model) (stored : gmap string string)
       (choices : list (string * Z)) (config : JSONConfig),
       ∃ columns config',
         CustomColumnsLayout model (CONFIG COLUMNS stored) COLUMNS = Ok columns
         ∧ save_settings (interact choices columns) config = Ok config'
         ∧ ∀ f, f ∈ COLUMNS →
             ∃ avail k, available_columns model !! type f = Some avail
                        ∧ data config' !! name f = Some k
                        ∧ (k = EmptyString ∨ is_Some (avail !! k))).
Proof.
  split.
  - intros M sel self.
    destruct (populate_combo_ok M sel self) as (c & texts & Hpop & Hcok & Hi & Ht & Hno & Hyes).
    exists c. pose proof Hcok as (Hn & Hlen & Hidx). split_and!; try done.
    + by rewrite Hn.
    + destruct (M !! sel) as [col|] eqn:Hsel; [|by rewrite Hno].
      assert (sel ∈ sorted (keys M)) as Hin by (apply elem_of_sorted_keys; eauto).
      apply list_elem_of_lookup_1 in Hin as [j Hj]. rewrite (Hyes j Hj). lia.
    + lia.
    + intros i Hi'. apply get_selected_column_ok. by apply setCurrentIndex_ok.
  - intros ext model stored choices config.
    destruct (CustomColumnsLayout_ok model (CONFIG COLUMNS stored)) as (columns & Hopen & Hok).
    { apply CONFIG_spec. }
    apply (interact_editor_ok _ _ _ choices) in Hok.
    pose proof (editor_ok_names _ _ _ Hok) as Hnames.
    pose proof (editor_ok_selected _ _ _ Hok) as Hsel.
    destruct (save_settings_spec (interact choices columns) config)
      as (config' & Hsave & Hdef & Hset & Hframe); [|done|].
    { rewrite Hnames. apply NoDup_field_names_COLUMNS. }
    exists columns, config'. split_and!; try done.
    intros f0 Hf0.
    destruct (editor_ok_field _ _ _ f0 Hok Hf0)
      as (f & avail & c & Hf & Hname & Htype & Hav & Hc & Hcok).
    destruct (Hset f c Hf Hc) as (k & Hk & Hdata).
    destruct (get_selected_column_ok avail c Hcok) as (k' & Hk' & Hkey).
    exists avail, k. rewrite <- Hname. split_and!; try done. congruence.
Qed.

Lemma combo_of_lookup (columns : list field) (i : nat) (f : field) :
  NoDup (field_names columns) → columns !! i = Some f →
  combo_of (name f) columns = combo f.
Proof.
  intros Hnd Hi. unfold combo_of.
  assert (list_find (λ column, name column = name f) columns = Some (i, f)) as ->; [|done].
  apply list_find_Some. split_and!; try done.
  intros j g Hj Hlt Heq.
  assert (i = j); [|lia].
  apply (NoDup_lookup (field_names columns) i j (name f)); [done| |];
    unfold field_names; rewrite list_lookup_fmap; [by rewrite Hi|rewrite Hj; simpl; by rewrite Heq].
Qed.

Lemma choose_lookup (columns : list field) (n : string) (index : Z) (i : nat)
    (f : field) (c : CustomColumnComboBox) :
  columns !! i = Some f → combo f = Some c → name f = n →
  choose n index columns !! i = Some (set_combo (setCurrentIndex index c) f).
Proof.
  intros Hi Hc Hn. unfold choose. rewrite list_lookup_fmap, Hi. simpl.
  by rewrite Hc, decide_True.
Qed.

Lemma interact_snoc (choices : list (string * Z)) (n : string) (index : Z)
    (columns : list field) :
  interact (choices ++ [(n, index)]) columns = choose n index (interact choices columns).
Proof. unfold interact. by rewrite foldl_app. Qed.

(** C2. When the persisted selection is not a key of the available
    columns, [populate_combo] returns normally with the first option,
    ["do not sync"], selected, and the control reports the empty key; and
    the editor opens on a configuration that holds such a selection for a
    field, with the control of the field on its first option. *)
Theorem populate_combo_stale_key (custom_columns : gmap string column)
    (selected_column : string) (self : CustomColumnComboBox) :
  custom_columns !! selected_column = None →
  (∃ c, populate_combo custom_columns selected_column self = Ok c
        ∧ currentIndex c = 0
        ∧ items c !! 0%nat = Some "do not sync"
        ∧ get_selected_column c = Ok EmptyString)
  ∧ ∀ `{Externals} (model : Calibre.library_model) (stored : gmap string string)
      (f : field),
      f ∈ COLUMNS →
      available_columns model !! type f = Some custom_columns →
      stored !! name f = Some selected_column →
      ∃ columns c,
        CustomColumnsLayout model (CONFIG COLUMNS stored) COLUMNS = Ok columns
        ∧ combo_of (name f) columns = Some c
        ∧ currentIndex c = 0
        ∧ get_selected_column c = Ok EmptyString.
Proof.
  intros Hstale. split.
  - destruct (populate_combo_spec custom_columns selected_column self)
      as (c & texts & Hpop & Hn & Hi & _ & Hidx & _).
    exists c. rewrite Hi. split_and!; try done; [by apply Hidx|].
    unfold get_selected_column. rewrite (Hidx Hstale), Hn.
    by apply (py_getitem_nonneg _ 0).
  - intros ext model stored f Hf Hav Hstored.
    set (config := CONFIG COLUMNS stored).
    destruct (CONFIG_spec COLUMNS stored) as [Hdata Hdefaults].
    fold config in Hdata, Hdefaults.
    destruct (layout_loop_spec (available_columns model) config COLUMNS)
      as (columns & Hopen & Hrel).
    { intros g Hg. split; [by apply COLUMNS_types|by apply Hdefaults]. }
    pose proof (layout_loop_editor_ok _ _ _ _ Hopen) as Hok.
    apply list_elem_of_lookup_1 in Hf as [i Hi].
    destruct (Forall2_lookup_l _ _ _ _ _ Hrel Hi)
      as (f' & Hf' & avail & sel & c & Hav' & Hget & Hnew & ->).
    assert (avail = custom_columns) as -> by congruence.
    assert (sel = selected_column) as ->.
    { unfold config_getitem in Hget. rewrite Hdata, Hstored in Hget. congruence. }
    destruct (new_combo_ok custom_columns selected_column)
      as (c' & texts & Hnew' & (Hn & _) & _ & _ & Hidx & _).
    assert (c' = c) as -> by congruence.
    exists columns, c. split_and!; try done.
    + replace (name f) with (name (set_combo c f)) by done.
      replace (Some c) with (combo (set_combo c f)) by done.
      apply (combo_of_lookup _ i); [|done].
      rewrite (editor_ok_names (available_columns model) COLUMNS).
      * apply NoDup_field_names_COLUMNS.
      * apply Hok. intros g Hg. split; [by apply COLUMNS_types|by apply Hdefaults].
    + by apply Hidx.
    + unfold get_selected_column. rewrite (Hidx Hstale), Hn.
      by apply (py_getitem_nonneg _ 0).
Qed.

(** On the example library: a key of a deleted column against the rating
    columns. *)
Lemma populate_combo_stale_key_witness :
  get_rating_columns example_model !! "#gone" = None
  ∧ ∃ c, populate_combo (get_rating_columns example_model) "#gone"
           {| items := []; currentIndex := -1; column_names := [] |} = Ok c
         ∧ currentIndex c = 0
         ∧ items c !! 0%nat = Some "do not sync"
         ∧ get_selected_column c = Ok EmptyString.
Proof.
  split; [vm_compute; reflexivity|].
  apply (populate_combo_stale_key (get_rating_columns example_model) "#gone").
  vm_compute; reflexivity.
Defined.

(** C1. A key [K] that is available for the type of a field is offered by
    the control of the field; when the user, after whatever else was done
    in the editor, picks the option of [K] there and saves, the
    configuration holds [K] under the name of the field; and an editor
    opened on that configuration, while [K] is still available for the
    type, shows the option of [K] as the current one of the field. *)
Theorem selection_round_trip `{Externals} (model : Calibre.library_model)
    (stored : gmap string string) (f : field) (avail : gmap string column)
    (K : string) :
  f ∈ COLUMNS →
  available_columns model !! type f = Some avail →
  is_Some (avail !! K) →
  ∃ columns c,
    CustomColumnsLayout model (CONFIG COLUMNS stored) COLUMNS = Ok columns
    ∧ combo_of (name f) columns = Some c
    ∧ K ∈ column_names c
    ∧ ∀ (choices : list (string * Z)) (index : nat),
        column_names c !! index = Some K →
        let columns' := interact (choices ++ [(name f, Z.of_nat index)]) columns in
        ∃ config',
          save_settings columns' (CONFIG COLUMNS stored) = Ok config'
          ∧ data config' !! name f = Some K
          ∧ ∀ (model' : Calibre.library_model) (avail' : gmap string column),
              available_columns model' !! type f = Some avail' →
              is_Some (avail' !! K) →
              ∃ columns'' c'' text,
                CustomColumnsLayout model' config' columns' = Ok columns''
                ∧ combo_of (name f) columns'' = Some c''
                ∧ get_selected_column c'' = Ok K
                ∧ 0 ≤ currentIndex c''
                ∧ items c'' !! Z.to_nat (currentIndex c'') = Some text
                ∧ option_text avail' K text.
Proof.
  intros Hf Hav HK.
  set (config := CONFIG COLUMNS stored).
  destruct (CONFIG_spec COLUMNS stored) as [Hdata Hdefaults]. fold config in Hdata, Hdefaults.
  destruct (CustomColumnsLayout_ok model config Hdefaults) as (columns & Hopen & Hok).
  apply list_elem_of_lookup_1 in Hf as [i Hi].
  (* the control of the field as the editor opens *)
  destruct (Forall2_lookup_l _ _ _ _ _ Hok Hi)
    as (f1 & Hf1 & Hn1 & Ht1 & avail1 & c & Hav1 & Hc & Hcok).
  assert (avail1 = avail) as -> by congruence.
  pose proof (editor_ok_names _ _ _ Hok) as Hnames.
  assert (combo_of (name f) columns = Some c) as Hcombo.
  { rewrite <- Hn1, <- Hc. apply (combo_of_lookup _ i); [|done].
    rewrite Hnames. apply NoDup_field_names_COLUMNS. }
  exists columns, c. split_and!; try done.
  { destruct Hcok as (-> & _). right. by apply elem_of_sorted_keys. }
  intros choices index Hindex columns'.
  (* the editor after the session and the last choice *)
  pose proof (interact_editor_ok _ _ _ choices Hok) as Hok1.
  destruct (Forall2_lookup_l _ _ _ _ _ Hok1 Hi)
    as (f2 & Hf2 & Hn2 & Ht2 & avail2 & c2 & Hav2 & Hc2 & Hcok2).
  assert (avail2 = avail) as -> by congruence.
  assert (columns' !! i = Some (set_combo (setCurrentIndex (Z.of_nat index) c2) f2)) as Hf'.
  { unfold columns'. rewrite interact_snoc. by apply choose_lookup. }
  assert (editor_ok (available_columns model) COLUMNS columns') as Hok'.
  { by apply interact_editor_ok. }
  pose proof (editor_ok_names _ _ _ Hok') as Hnames'.
  assert (get_selected_column (setCurrentIndex (Z.of_nat index) c2) = Ok K) as Hsel.
  { destruct Hcok as (Hcn & _), Hcok2 as (Hcn2 & Hlen2 & _).
    unfold get_selected_column. simpl. fold (count c2). unfold count.
    rewrite Hlen2, Hcn2, <- Hcn. apply lookup_lt_Some in Hindex as Hlt.
    rewrite in_range_true by lia. by apply py_getitem_nonneg. }
  destruct (save_settings_spec columns' config)
    as (config' & Hsave & Hdef & Hset & Hframe).
  { rewrite Hnames'. apply NoDup_field_names_COLUMNS. }
  { by eapply editor_ok_selected. }
  assert (data config' !! name f = Some K) as HdataK.
  { destruct (Hset _ (setCurrentIndex (Z.of_nat index) c2)
      (list_elem_of_lookup_2 _ _ _ Hf') eq_refl) as (k & Hk & Hd).
    simpl in Hd. rewrite Hn2 in Hd. congruence. }
  exists config'. split_and!; try done.
  (* the editor opened again *)
  intros model' avail' Hav' HK'. unfold CustomColumnsLayout.
  destruct (layout_loop_spec (available_columns model') config' columns')
    as (columns'' & Hopen' & Hrel).
  { intros g Hg. apply list_elem_of_lookup_1 in Hg as [j Hj].
    destruct (Forall2_lookup_r _ _ _ _ _ Hok' Hj) as (g0 & Hg0 & Hgn & Hgt & _).
    apply list_elem_of_lookup_2 in Hg0.
    rewrite Hgn, Hgt, Hdef. split; [by apply COLUMNS_types|by apply Hdefaults]. }
  destruct (Forall2_lookup_l _ _ _ _ _ Hrel Hf')
    as (f'' & Hf'' & avail'' & sel & c'' & Hav'' & Hget & Hnew & ->).
  simpl in Hav'', Hget. rewrite Ht2 in Hav''. rewrite Hn2 in Hget.
  assert (avail'' = avail') as -> by congruence.
  assert (sel = K) as ->.
  { unfold config_getitem in Hget. rewrite HdataK in Hget. congruence. }
  destruct (new_combo_ok avail' K) as (c3 & texts & Hnew3 & Hcok3 & Hitems & Htexts & _ & Hcur).
  assert (c3 = c'') as -> by congruence.
  assert (K ∈ sorted (keys avail')) as Hin by (by apply elem_of_sorted_keys).
  apply list_elem_of_lookup_1 in Hin as [j Hj].
  destruct (Forall2_lookup_l _ _ _ _ _ Htexts Hj) as (text & Htext & Hopt).
  exists columns'', c'', text. rewrite (Hcur j Hj), Nat2Z.id.
  split_and!; try done.
  - replace (name f) with (name (set_combo c'' f2)) by (simpl; congruence).
    replace (Some c'') with (combo (set_combo c'' f2)) by done.
    apply (combo_of_lookup _ i); [|done].
    assert (field_names columns'' = field_names columns') as ->; [|by rewrite Hnames'; apply NoDup_field_names_COLUMNS].
    clear -Hrel. unfold field_names.
    induction Hrel as [|g0 g ?? (? & ? & ? & _ & _ & _ & ->) _ IH]; [done|].
    rewrite !fmap_cons. by rewrite IH.
  - unfold get_selected_column. destruct Hcok3 as (-> & _).
    rewrite (Hcur j Hj). by apply py_getitem_nonneg.
  - by rewrite Hitems.
Qed.

(** On the example library: the rating field and the custom column
    [#stars]. *)
Lemma selection_round_trip_witness :
  example_field ∈ @COLUMNS example_externals
  ∧ available_columns example_model !! type example_field
    = Some (get_rating_columns example_model)
  ∧ is_Some (get_rating_columns example_model !! "#stars")
  ∧ ∃ columns c,
      CustomColumnsLayout example_model (CONFIG (@COLUMNS example_externals) ∅)
        (@COLUMNS example_externals) = Ok columns
      ∧ combo_of (name example_field) columns = Some c
      ∧ "#stars" ∈ column_names c
      ∧ ∀ (choices : list (string * Z)) (index : nat),
          column_names c !! index = Some "#stars" →
          let columns' :=
            interact (choices ++ [(name example_field, Z.of_nat index)]) columns in
          ∃ config',
            save_settings columns' (CONFIG (@COLUMNS example_externals) ∅) = Ok config'
            ∧ data config' !! name example_field = Some "#stars"
            ∧ ∀ (model' : Calibre.library_model) (avail' : gmap string column),
                available_columns model' !! type example_field = Some avail' →
                is_Some (avail' !! "#stars") →
                ∃ columns'' c'' text,
                  CustomColumnsLayout model' config' columns' = Ok columns''
                  ∧ combo_of (name example_field) columns'' = Some c''
                  ∧ get_selected_column c'' = Ok "#stars"
                  ∧ 0 ≤ currentIndex c''
                  ∧ items c'' !! Z.to_nat (currentIndex c'') = Some text
                  ∧ option_text avail' "#stars" text.
Proof.
  assert (example_field ∈ @COLUMNS example_externals) as Hf.
  { apply (list_elem_of_lookup_2 _ 3%nat). reflexivity. }
  assert (available_columns example_model !! type example_field
          = Some (get_rating_columns example_model)) as Hav.
  { reflexivity. }
  assert (is_Some (get_rating_columns example_model !! "#stars")) as HK.
  { vm_compute. eexists. reflexivity. }
  split_and!; [exact Hf|exact Hav|exact HK|].
  exact (selection_round_trip example_model ∅ example_field
           (get_rating_columns example_model) "#stars" Hf Hav HK).
Defined.

(** ** Floating-point arithmetic *)

Lemma digits2_pos_size (p : positive) : digits2_pos p = Pos.size p.
Proof. induction p as [p IH|p IH|]; simpl; by rewrite ?IH. Qed.

Lemma digits2_pos_bounds (p : positive) :
  2 ^ (Z.pos (digits2_pos p) - 1) ≤ Z.pos p < 2 ^ Z.pos (digits2_pos p).
Proof.
  rewrite digits2_pos_size. split.
  - pose proof (Pos.size_le p) as Hle.
    apply (Pos2Z.pos_le_pos) in Hle. rewrite Pos2Z.inj_pow in Hle.
    replace (Z.pos (Pos.size p)) with (Z.succ (Z.pos (Pos.size p) - 1)) in Hle by lia.
    rewrite Z.pow_succ_r in Hle by lia. lia.
  - pose proof (Pos.size_gt p) as Hgt.
    apply Pos2Z.pos_lt_pos in Hgt. by rewrite Pos2Z.inj_pow in Hgt.
Qed.

Lemma Zdigits2_le (m d : Z) : 0 ≤ m < 2 ^ d → Zdigits2 m ≤ Z.max 0 d.
Proof.
  intros [Hm Hlt]. destruct m as [|p|p]; simpl; [lia| |lia].
  destruct (digits2_pos_bounds p) as [Hlo _].
  destruct (Z.le_gt_cases (Z.pos (digits2_pos p)) d) as [|Hgt]; [lia|].
  assert (0 ≤ d) by (destruct d; try lia; by rewrite Z.pow_neg_r in Hlt by lia).
  assert (2 ^ d ≤ 2 ^ (Z.pos (digits2_pos p) - 1)) by (apply Z.pow_le_mono_r; lia).
  lia.
Qed.

(** One step of the shift: the mantissa is halved, the round bit is the
    bit that falls off, the sticky bit collects what fell off before. *)
Lemma shr_1_spec (mrs : shr_record) :
  0 ≤ shr_m mrs →
  shr_m (shr_1 mrs) = shr_m mrs / 2
  ∧ shr_r (shr_1 mrs) = Z.odd (shr_m mrs)
  ∧ shr_s (shr_1 mrs) = shr_r mrs || shr_s mrs.
Proof.
  destruct mrs as [m r s]. simpl. intros Hm.
  destruct m as [|[p|p|]|p]; simpl; try lia; split_and!; try done.
  - rewrite Pos2Z.inj_xI. apply Z.div_unique with 1; lia.
  - rewrite Pos2Z.inj_xO. apply Z.div_unique with 0; lia.
Qed.

Lemma iter_pos_nat {A} (f : A → A) (p : positive) (x : A) :
  SpecFloat.iter_pos f p x = Nat.iter (Pos.to_nat p) f x.
Proof.
  revert x. induction p as [p IH|p IH|]; intros x; cbn [SpecFloat.iter_pos].
  - rewrite !IH, Pos2Nat.inj_xI.
    replace (S (2 * Pos.to_nat p)) with (Pos.to_nat p + (Pos.to_nat p + 1))%nat by lia.
    by rewrite !Nat.iter_add.
  - rewrite !IH, Pos2Nat.inj_xO.
    replace (2 * Pos.to_nat p)%nat with (Pos.to_nat p + Pos.to_nat p)%nat by lia.
    by rewrite Nat.iter_add.
  - done.
Qed.

Lemma iter_shr_1_spec (n : nat) (m : Z) :
  0 ≤ m →
  let mrs := Nat.iter n shr_1 {| shr_m := m; shr_r := false; shr_s := false |} in
  shr_m mrs = m / 2 ^ Z.of_nat n
  ∧ (m mod 2 ^ Z.of_nat n = 0 → shr_r mrs = false ∧ shr_s mrs = false).
Proof.
  intros Hm. induction n as [|n IH].
  - simpl. split; [by rewrite Z.div_1_r|done].
  - rewrite Nat.iter_succ. destruct IH as [IHm IHrs].
    set (mrs := Nat.iter n shr_1 _) in *.
    assert (0 ≤ shr_m mrs) as Hpos by (rewrite IHm; apply Z.div_pos; lia).
    destruct (shr_1_spec mrs Hpos) as (H1 & H2 & H3).
    rewrite Nat2Z.inj_succ, Z.pow_succ_r by lia.
    split.
    + rewrite H1, IHm. rewrite Z.div_div by lia. f_equal. lia.
    + intros Hmod.
      assert (m mod 2 ^ Z.of_nat n = 0) as Hmod'.
      { apply Z.mod_divide; [lia|]. apply Z.mod_divide in Hmod; [|lia].
        destruct Hmod as [q Hq]. exists (q * 2). lia. }
      destruct (IHrs Hmod') as [Hr Hs]. rewrite H2, H3, Hr, Hs. split; [|done].
      rewrite IHm. apply Z.mod_divide in Hmod; [|lia]. destruct Hmod as [q ->].
      replace (q * (2 * 2 ^ Z.of_nat n)) with (q * 2 * 2 ^ Z.of_nat n) by lia.
      rewrite Z.div_mul by lia. rewrite Z.odd_mul. simpl. apply andb_false_r.
Qed.

(** [shr] from an exact position: the exponent grows by the shift, the
    mantissa is divided, and nothing is flagged when nothing is lost. *)
Lemma shr_exact_spec (m e n : Z) :
  0 ≤ m →
  let k := Z.max 0 n in
  let '(mrs, e') := shr (shr_record_of_loc m loc_Exact) e n in
  e' = e + k
  ∧ shr_m mrs = m / 2 ^ k
  ∧ (m mod 2 ^ k = 0 → shr_r mrs = false ∧ shr_s mrs = false).
Proof.
  intros Hm. destruct n as [|p|p]; simpl.
  - split_and!; [lia|by rewrite Z.div_1_r|done].
  - rewrite iter_pos_nat.
    destruct (iter_shr_1_spec (Pos.to_nat p) m Hm) as [H1 H2].
    rewrite positive_nat_Z in H1, H2. by split_and!.
  - split_and!; [lia|by rewrite Z.div_1_r|done].
Qed.

Lemma round_nearest_even_bounds (mrs : shr_record) :
  let m' := round_nearest_even (shr_m mrs) (loc_of_shr_record mrs) in
  shr_m mrs ≤ m' ≤ shr_m mrs + 1
  ∧ (shr_r mrs = false → m' = shr_m mrs).
Proof.
  destruct mrs as [m [|] [|]]; simpl; try (split; [lia|done]).
  destruct (Z.even m); split; try lia; done.
Qed.

Lemma binary_round_aux_exact_spec (sx : bool) (m e : Z) :
  0 < m →
  let k1 := Z.max 0 (fexp prec emax (Zdigits2 m + e) - e) in
  ∃ m2,
    m / 2 ^ k1 ≤ m2 ≤ m / 2 ^ k1 + 1
    ∧ (m mod 2 ^ k1 = 0 → m2 = m / 2 ^ k1)
    ∧ let k2 := Z.max 0 (fexp prec emax (Zdigits2 m2 + (e + k1)) - (e + k1)) in
      binary_round_aux prec emax sx m e loc_Exact
      = match m2 / 2 ^ k2 with
        | Z0 => S754_zero sx
        | Zpos m3 =>
            if e + k1 + k2 <=? emax - prec
            then S754_finite sx m3 (e + k1 + k2) else S754_infinity sx
        | Zneg _ => S754_nan
        end.
Proof.
  intros Hm k1. unfold binary_round_aux, shr_fexp.
  pose proof (shr_exact_spec m e (fexp prec emax (Zdigits2 m + e) - e)) as H1.
  destruct (shr _ e _) as [mrs1 e1]. destruct H1 as (-> & Hm1 & Hex1); [lia|].
  fold k1 in Hm1, Hex1 |- *.
  destruct (round_nearest_even_bounds mrs1) as [Hb Hr].
  set (m2 := round_nearest_even _ _) in *.
  assert (0 ≤ m / 2 ^ k1) by (apply Z.div_pos; lia).
  pose proof (shr_exact_spec m2 (e + k1) (fexp prec emax (Zdigits2 m2 + (e + k1)) - (e + k1))) as H2.
  destruct (shr _ (e + k1) _) as [mrs2 e2]. destruct H2 as (-> & Hm2 & _); [lia|].
  exists m2. rewrite <- Hm1. split; [done|]. split.
  - intros Hmod. apply Hr. by apply Hex1.
  - simpl. by rewrite Hm2.
Qed.

(** A product that does not exceed [b * 2 ^ eb], a number the format
    holds, is rounded to a float that does not exceed it either. *)
Lemma binary_round_aux_le (sx : bool) (m e b eb : Z) :
  0 < m → 0 < b < 2 ^ prec → e ≤ eb → emin prec emax ≤ eb ≤ emax - prec →
  m ≤ b * 2 ^ (eb - e) →
  binary_round_aux prec emax sx m e loc_Exact = S754_zero sx
  ∨ ∃ m3 e3,
      binary_round_aux prec emax sx m e loc_Exact = S754_finite sx m3 e3
      ∧ e3 ≤ eb ∧ Z.pos m3 ≤ b * 2 ^ (eb - e3).
Proof.
  intros Hm Hb He Heb Hle.
  destruct (binary_round_aux_exact_spec sx m e Hm) as (m2 & Hm2 & Hexact & ->).
  set (k1 := Z.max 0 (fexp prec emax (Zdigits2 m + e) - e)) in *.
  set (k2 := Z.max 0 (fexp prec emax (Zdigits2 m2 + (e + k1)) - (e + k1))) in *.
  assert (2 ^ prec = 9007199254740992) as Hprec by done.
  (* the first shift stops at or below the exponent of the bound *)
  assert (∀ n d, 0 ≤ n → d ≤ eb → n ≤ b * 2 ^ (eb - d) →
            Z.max 0 (fexp prec emax (Zdigits2 n + d) - d) ≤ eb - d) as Hshift.
  { intros n d Hn Hd Hnb.
    assert (Zdigits2 n ≤ Z.max 0 (prec + (eb - d))) as Hdig.
    { apply Zdigits2_le. split; [done|].
      rewrite Z.pow_add_r by (unfold prec; lia).
      assert (0 < 2 ^ (eb - d)) by (apply Z.pow_pos_nonneg; lia). nia. }
    unfold fexp, emin, prec, emax in *. lia. }
  assert (0 ≤ k1 ≤ eb - e) as Hk1.
  { split; [unfold k1; lia|]. apply Hshift; lia. }
  assert (0 < 2 ^ k1) as Hp1 by (apply Z.pow_pos_nonneg; lia).
  assert (m2 ≤ b * 2 ^ (eb - (e + k1))) as Hm2b.
  { assert (b * 2 ^ (eb - e) = b * 2 ^ (eb - (e + k1)) * 2 ^ k1) as HB.
    { rewrite <- Z.mul_assoc, <- Z.pow_add_r by lia. do 2 f_equal. lia. }
    rewrite HB in Hle. set (B := b * 2 ^ (eb - (e + k1))) in *.
    destruct (Z.eq_dec (m mod 2 ^ k1) 0) as [Hz|Hnz].
    - rewrite (Hexact Hz). apply Z.div_le_upper_bound; lia.
    - assert (m / 2 ^ k1 < B); [|lia].
      apply Z.div_lt_upper_bound; [lia|].
      assert (m ≠ 2 ^ k1 * B); [|lia].
      intros Heq. rewrite Heq, Z.mul_comm, Z.mod_mul in Hnz; lia. }
  assert (0 ≤ m / 2 ^ k1) by (apply Z.div_pos; lia).
  assert (0 ≤ k2 ≤ eb - (e + k1)) as Hk2.
  { split; [unfold k2; lia|]. apply Hshift; lia. }
  assert (0 < 2 ^ k2) as Hp2 by (apply Z.pow_pos_nonneg; lia).
  assert (m2 / 2 ^ k2 ≤ b * 2 ^ (eb - (e + k1 + k2))) as Hm3.
  { apply Z.div_le_upper_bound; [lia|].
    replace (2 ^ k2 * (b * 2 ^ (eb - (e + k1 + k2)))) with (b * 2 ^ (eb - (e + k1))); [done|].
    rewrite (Z.mul_comm (2 ^ k2)), <- Z.mul_assoc, <- Z.pow_add_r by lia.
    do 2 f_equal. lia. }
  assert (0 ≤ m2 / 2 ^ k2) by (apply Z.div_pos; lia).
  destruct (m2 / 2 ^ k2) as [|m3|m3] eqn:Hm3eq; [by left| |lia].
  right. exists m3, (e + k1 + k2).
  assert ((e + k1 + k2 <=? emax - prec) = true) as -> by (apply Z.leb_le; lia).
  split_and!; [done|lia|done].
Qed.

Lemma Qpower2_nonneg (e : Z) : 0 ≤ e → (2 ^ e == inject_Z (2 ^ e))%Q.
Proof. intros He. by rewrite Zpower_Qpower. Qed.

Lemma Qpower2_neg (e : Z) : e < 0 → (2 ^ e == 1 # Z.to_pos (2 ^ (- e)))%Q.
Proof.
  intros He. replace e with (- - e) at 1 by lia.
  rewrite Qpower_opp, <- (Zpower_Qpower 2 (- e)) by lia.
  assert (0 < 2 ^ (- e)) as Hpos by (apply Z.pow_pos_nonneg; lia).
  destruct (2 ^ (- e)) as [|p|p]; try lia. done.
Qed.

(** The real value of a finite float, with an integer over a power of two
    when the exponent is negative. *)
Lemma float_to_Q_finite (s : bool) (m : positive) (e : Z) :
  ∃ q, float_to_Q (S754_finite s m e) = Some q
       ∧ (q == if 0 <=? e then inject_Z (cond_Zopp s (Z.pos m) * 2 ^ e)
               else cond_Zopp s (Z.pos m) # Z.to_pos (2 ^ (- e)))%Q.
Proof.
  eexists. split; [done|]. destruct (Z.leb_spec 0 e).
  - rewrite Qpower2_nonneg by done. by rewrite inject_Z_mult.
  - rewrite Qpower2_neg by done. unfold Qeq, Qmult, inject_Z. simpl. lia.
Qed.

Lemma Qfloor_proper (p q : Q) : (p == q)%Q → Qfloor p = Qfloor q.
Proof. apply Qfloor_comp. Qed.

(** [math.floor] is the floor of the real value. *)
Lemma math_floor_spec (x : spec_float) (q : Q) :
  float_to_Q x = Some q → math_floor x = Ok (Qfloor q).
Proof.
  destruct x as [s|s| |s m e]; simpl; try done.
  - by intros [= <-].
  - intros [= <-]. f_equal.
    destruct (float_to_Q_finite s m e) as (q & [= <-] & Hq).
    rewrite (Qfloor_proper _ _ Hq). destruct (Z.leb_spec 0 e).
    + by rewrite Qfloor_Z.
    + simpl. rewrite Z2Pos.id; [done|]. apply Z.pow_pos_nonneg; lia.
Qed.

(** A float whose value lies between 0 and 1 has a positive sign, an
    exponent that is not positive, and a mantissa below the power of two
    of the exponent. *)
Lemma float_to_Q_unit (s : bool) (m : positive) (e : Z) (q : Q) :
  float_to_Q (S754_finite s m e) = Some q → (0 <= q <= 1)%Q →
  s = false ∧ e ≤ 0 ∧ Z.pos m ≤ 2 ^ (- e).
Proof.
  intros Hq [H0 H1].
  destruct (float_to_Q_finite s m e) as (q' & Hq' & Heq).
  assert (q' = q) as -> by congruence. rewrite Heq in H0, H1. clear Heq Hq Hq'.
  destruct (Z.leb_spec 0 e) as [He|He].
  - change 0%Q with (inject_Z 0) in H0. change 1%Q with (inject_Z 1) in H1.
    rewrite <- Zle_Qle in H0, H1.
    assert (0 < 2 ^ e) by (apply Z.pow_pos_nonneg; lia).
    destruct s; simpl in *; [nia|].
    assert (e = 0) as ->.
    { destruct (Z.eq_dec e 0) as [|Hne]; [done|].
      assert (2 ^ 1 ≤ 2 ^ e) by (apply Z.pow_le_mono_r; lia). nia. }
    simpl in *. split_and!; [done|lia|lia].
  - assert (0 < 2 ^ (- e)) as Hpos by (apply Z.pow_pos_nonneg; lia).
    unfold Qle in H0, H1. simpl in H0, H1.
    rewrite Z2Pos.id in H1 by done.
    destruct s; simpl in *; split_and!; try lia; done.
Qed.

(** Between 0 and 1 a percentage times 100, rounded as the float
    multiplication rounds it, is a float between 0 and 100, and
    [math.floor] returns the floor of its value. *)
Lemma floor_percent_range (x : spec_float) (q : Q) :
  float_to_Q x = Some q → (0 <= q <= 1)%Q →
  ∃ p, float_to_Q (float_mul x (float_of_int 100)) = Some p
       ∧ math_floor (float_mul x (float_of_int 100)) = Ok (Qfloor p)
       ∧ 0 ≤ Qfloor p ≤ 100.
Proof.
  intros Hq Hrange. destruct x as [s|s| |s m e]; try done.
  - exists 0%Q. by split_and!.
  - destruct (float_to_Q_unit s m e q Hq Hrange) as (-> & He & Hm).
    change (float_mul (S754_finite false m e) (float_of_int 100))
      with (binary_round_aux prec emax false (Z.pos (m * 7036874417766400)) (e + -46) loc_Exact).
    assert (0 < 2 ^ (- e)) as Hpos by (apply Z.pow_pos_nonneg; lia).
    destruct (binary_round_aux_le false (Z.pos (m * 7036874417766400)) (e + -46) 25 2)
      as [-> | (m3 & e3 & -> & He3 & Hm3)]; try done; try (unfold emin, prec, emax; lia).
    { replace (2 - (e + -46)) with (48 + - e) by lia.
      rewrite Z.pow_add_r by lia. rewrite Pos2Z.inj_mul.
      change (2 ^ 48) with 281474976710656. lia. }
    + exists 0%Q. by split_and!.
    + destruct (float_to_Q_finite false m3 e3) as (p & Hp & _).
      exists p. pose proof (math_floor_spec _ _ Hp) as Hfloor.
      split_and!; try done; simpl in Hfloor; injection Hfloor as <-.
      * destruct (Z.leb_spec 0 e3); [|apply Z.div_pos; [lia|apply Z.pow_pos_nonneg; lia]].
        assert (0 < 2 ^ e3) by (apply Z.pow_pos_nonneg; lia). lia.
      * destruct (Z.leb_spec 0 e3).
        -- assert (e3 = 0 ∨ e3 = 1 ∨ e3 = 2) as [-> | [-> | ->]] by lia; simpl in *; lia.
        -- apply Z.div_le_upper_bound; [apply Z.pow_pos_nonneg; lia|].
           replace (2 - e3) with (2 + - e3) in Hm3 by lia.
           rewrite Z.pow_add_r in Hm3 by lia. lia.
Qed.

Lemma Zdigits2_unique (m d : Z) :
  0 < m → 2 ^ (d - 1) ≤ m < 2 ^ d → Zdigits2 m = d.
Proof.
  intros Hm [Hlo Hhi]. destruct m as [|p|p]; try lia. simpl.
  destruct (digits2_pos_bounds p) as [Hlo' Hhi'].
  set (D := Z.pos (digits2_pos p)) in *.
  assert (0 < d).
  { destruct (Z.lt_ge_cases 0 d) as [|Hd]; [done|].
    assert (2 ^ d ≤ 2 ^ 0) by (apply Z.pow_le_mono_r; lia).
    destruct (Z.lt_ge_cases d 0); [rewrite Z.pow_neg_r in Hhi by done|]; simpl in *; lia. }
  destruct (Z.lt_trichotomy D d) as [Hlt|[Heq|Hgt]]; [|done|].
  - assert (2 ^ D ≤ 2 ^ (d - 1)) by (apply Z.pow_le_mono_r; lia). lia.
  - assert (2 ^ d ≤ 2 ^ (D - 1)) by (apply Z.pow_le_mono_r; lia). lia.
Qed.

Lemma Zdigits2_mul_pow2 (p : positive) (k : Z) :
  0 ≤ k → Zdigits2 (Z.pos p * 2 ^ k) = Z.pos (digits2_pos p) + k.
Proof.
  intros Hk. assert (0 < 2 ^ k) by (apply Z.pow_pos_nonneg; lia).
  destruct (digits2_pos_bounds p) as [Hlo Hhi].
  apply Zdigits2_unique; [lia|].
  replace (Z.pos (digits2_pos p) + k - 1) with (Z.pos (digits2_pos p) - 1 + k) by lia.
  rewrite !Z.pow_add_r by lia. nia.
Qed.

(** The product of a float of the format by 2 is exact while it does not
    overflow: the exponent grows by one, or, for a subnormal number, the
    mantissa doubles. *)
Lemma float_mul_two (s : bool) (m : positive) (e : Z) :
  bounded prec emax m e = true → e + 1 ≤ emax - prec →
  float_mul (S754_finite s m e) (float_of_int 2)
  = if Z.pos (digits2_pos m) =? prec
    then S754_finite s m (e + 1) else S754_finite s m~0 e.
Proof.
  intros Hb He. apply andb_true_iff in Hb as [Hcanon _].
  apply Z.eqb_eq in Hcanon. unfold fexp, emin in Hcanon.
  change (float_mul (S754_finite s m e) (float_of_int 2))
    with (binary_round_aux prec emax (xorb s false)
            (Z.pos (m * 4503599627370496)) (e + -51) loc_Exact).
  rewrite xorb_false_r. rewrite Pos2Z.inj_mul.
  change (Z.pos 4503599627370496) with (2 ^ 52).
  assert (0 < Z.pos m * 2 ^ 52) as Hpos by lia.
  destruct (binary_round_aux_exact_spec s (Z.pos m * 2 ^ 52) (e + -51) Hpos)
    as (m2 & _ & Hexact & ->).
  rewrite Zdigits2_mul_pow2 in * by lia.
  set (D := Z.pos (digits2_pos m)) in *.
  assert (0 < D) by (unfold D; lia).
  unfold fexp, emin, prec, emax in *.
  destruct (Z.eqb_spec D 53) as [HD|HD].
  - assert (Z.max 0 (Z.max (D + 52 + (e + -51) - 53) (3 - 1024 - 53) - (e + -51)) = 52)
      as Hk1 by lia.
    rewrite Hk1 in *.
    rewrite Z.mod_mul, Z.div_mul in Hexact by lia. rewrite (Hexact eq_refl).
    simpl Zdigits2. fold D.
    assert (Z.max 0 (Z.max (D + (e + -51 + 52) - 53) (3 - 1024 - 53) - (e + -51 + 52)) = 0)
      as -> by lia.
    rewrite Z.div_1_r.
    replace (e + -51 + 52 + 0) with (e + 1) by lia.
    by rewrite (proj2 (Z.leb_le _ _)) by lia.
  - assert (Z.max 0 (Z.max (D + 52 + (e + -51) - 53) (3 - 1024 - 53) - (e + -51)) = 51)
      as Hk1 by lia.
    rewrite Hk1 in *.
    replace (Z.pos m * 2 ^ 52) with (Z.pos m~0 * 2 ^ 51) in Hexact by (rewrite Pos2Z.inj_xO; lia).
    rewrite Z.mod_mul, Z.div_mul in Hexact by lia. rewrite (Hexact eq_refl).
    assert (Zdigits2 (Z.pos m~0) = D + 1) as ->.
    { simpl. unfold D. lia. }
    assert (Z.max 0 (Z.max (D + 1 + (e + -51 + 51) - 53) (3 - 1024 - 53) - (e + -51 + 51)) = 0)
      as -> by lia.
    rewrite Z.div_1_r.
    replace (e + -51 + 51 + 0) with e by lia.
    by rewrite (proj2 (Z.leb_le _ _)) by lia.
Qed.

Lemma Q2_nonzero : ¬ (2 == 0)%Q.
Proof. done. Qed.

(** A rating between 0 and 5 that is a float of the format is doubled
    exactly. *)
Lemma float_double_exact (x : spec_float) (q : Q) :
  valid_binary prec emax x = true →
  float_to_Q x = Some q → (0 <= q <= 5)%Q →
  ∃ p, float_to_Q (float_mul x (float_of_int 2)) = Some p ∧ (p == 2 * q)%Q.
Proof.
  intros Hvalid Hq [H0 H5]. destruct x as [s|s| |s m e]; try done.
  - injection Hq as <-. by exists 0%Q.
  - simpl in Hvalid.
    assert (e + 1 ≤ emax - prec) as He.
    { apply andb_true_iff in Hvalid as [_ Hle]. apply Z.leb_le in Hle.
      destruct (Z.eq_dec e (emax - prec)) as [Heq|]; [|lia]. exfalso.
      destruct (float_to_Q_finite s m e) as (q' & Hq' & Hval).
      assert (q' = q) as -> by congruence.
      unfold emax, prec in Heq.
      rewrite (proj2 (Z.leb_le 0 e)) in Hval by lia. rewrite Hval in H0, H5.
      change 0%Q with (inject_Z 0) in H0. change 5%Q with (inject_Z 5) in H5.
      rewrite <- Zle_Qle in H0, H5.
      assert (2 ^ 3 ≤ 2 ^ e) by (apply Z.pow_le_mono_r; lia).
      change (2 ^ 3) with 8 in *. destruct s; simpl cond_Zopp in *; nia. }
    rewrite (float_mul_two s m e Hvalid He). injection Hq as <-.
    destruct (Z.pos (digits2_pos m) =? prec); eexists; (split; [done|]).
    + rewrite Qpower_plus by apply Q2_nonzero. change (2 ^ 1)%Q with 2%Q. ring.
    + replace (cond_Zopp s (Z.pos m~0)) with (2 * cond_Zopp s (Z.pos m))
        by (destruct s; simpl; lia).
      rewrite inject_Z_mult. change (inject_Z 2) with 2%Q. ring.
Qed.

(** The floats of the literals are the floats nearest to the decimals:
    they are within half a unit in the last place of them. *)
Lemma float_literals_nearest :
  (∃ q, float_to_Q float_0_73 = Some q
        ∧ (- (1 # 2 ^ 54) <= q - (73 # 100) <= 1 # 2 ^ 54)%Q)
  ∧ (∃ q, float_to_Q float_0_999 = Some q
          ∧ (- (1 # 2 ^ 54) <= q - (999 # 1000) <= 1 # 2 ^ 54)%Q)
  ∧ (∃ q, float_to_Q float_4_0 = Some q ∧ (q == 4)%Q).
Proof.
  split_and!; (eexists; split; [reflexivity|]); [split|split|]; by vm_compute.
Qed.

(** C6. The transform of [column_percent_read_int] is the floor of the
    float product of [float(value)] by 100: for a float between 0 and 1 it
    returns the floor of the real value of that product, an integer
    between 0 and 100; for the floats of 0.73 and 0.999 it returns 73 and
    99; for the integers 0 and 1, 0 and 100. *)
Theorem percent_read_int_transform `{Externals} :
  ∃ f t,
    f ∈ COLUMNS
    ∧ name f = "column_percent_read_int"
    ∧ transform f = Some t
    ∧ (∀ value,
         t value = (x ← float_ value;
                    n ← math_floor (float_mul x (float_of_int 100));
                    Ok (PInt n)))
    ∧ (∀ x p, float_to_Q x = Some p → math_floor x = Ok (Qfloor p))
    ∧ (∀ x q, float_to_Q x = Some q → (0 <= q <= 1)%Q →
         ∃ p, float_to_Q (float_mul x (float_of_int 100)) = Some p
              ∧ t (PFloat x) = Ok (PInt (Qfloor p))
              ∧ 0 ≤ Qfloor p ≤ 100)
    ∧ t (PFloat float_0_73) = Ok (PInt 73)
    ∧ t (PFloat float_0_999) = Ok (PInt 99)
    ∧ t (PInt 0) = Ok (PInt 0)
    ∧ t (PInt 1) = Ok (PInt 100).
Proof.
  eexists _, _. split; [apply (list_elem_of_lookup_2 _ 1%nat); reflexivity|].
  split_and!; try reflexivity.
  - apply math_floor_spec.
  - intros x q Hq Hrange.
    destruct (floor_percent_range x q Hq Hrange) as (p & Hp & Hfloor & Hb).
    exists p. split_and!; try done; try lia.
    cbn [float_ mbind result_mbind result_bind]. by rewrite Hfloor.
Qed.

(** The bound at the float of 0.999. *)
Lemma percent_read_int_transform_witness :
  ∃ f t q,
    f ∈ @COLUMNS example_externals
    ∧ name f = "column_percent_read_int"
    ∧ transform f = Some t
    ∧ float_to_Q float_0_999 = Some q
    ∧ (0 <= q <= 1)%Q
    ∧ ∃ p, float_to_Q (float_mul float_0_999 (float_of_int 100)) = Some p
           ∧ t (PFloat float_0_999) = Ok (PInt (Qfloor p))
           ∧ 0 ≤ Qfloor p ≤ 100.
Proof.
  destruct (@percent_read_int_transform example_externals)
    as (f & t & Hf & Hname & Ht & _ & _ & Hrange & _).
  exists f, t, (inject_Z 8998192055486251 * 2 ^ (-53))%Q.
  split_and!; [exact Hf|exact Hname|exact Ht|reflexivity|by vm_compute|by vm_compute|].
  apply (Hrange float_0_999 (inject_Z 8998192055486251 * 2 ^ (-53))%Q); [reflexivity|].
  split; by vm_compute.
Defined.

(** C8. The transform of [column_rating] doubles the value: an integer
    rating becomes twice the integer; a float rating between 0 and 5
    becomes the float whose value is exactly twice its value, so that the
    result lies between 0 and 10; the float 4.0 becomes the float of
    value 8. *)
Theorem rating_transform `{Externals} :
  ∃ f t,
    f ∈ COLUMNS
    ∧ name f = "column_rating"
    ∧ transform f = Some t
    ∧ (∀ n, t (PInt n) = Ok (PInt (n * 2)))
    ∧ (∀ x q, valid_binary prec emax x = true →
         float_to_Q x = Some q → (0 <= q <= 5)%Q →
         ∃ y p, t (PFloat x) = Ok (PFloat y)
                ∧ float_to_Q y = Some p
                ∧ (p == 2 * q)%Q ∧ (0 <= p <= 10)%Q)
    ∧ (∃ y p, t (PFloat float_4_0) = Ok (PFloat y)
              ∧ float_to_Q y = Some p ∧ (p == 8)%Q).
Proof.
  eexists _, _. split; [apply (list_elem_of_lookup_2 _ 3%nat); reflexivity|].
  split_and!; try reflexivity.
  - intros x q Hvalid Hq Hrange.
    destruct (float_double_exact x q Hvalid Hq Hrange) as (p & Hp & Heq).
    exists (float_mul x (float_of_int 2)), p. split_and!; try done.
    + rewrite Heq. destruct Hrange as [H0 _].
      change 0%Q with (2 * 0)%Q. by apply Qmult_le_l.
    + rewrite Heq. destruct Hrange as [_ H5].
      change 10%Q with (2 * 5)%Q. by apply Qmult_le_l.
  - eexists _, _. split; [reflexivity|]. split; [reflexivity|]. by vm_compute.
Qed.

(** The exact doubling at the float 4.0. *)
Lemma rating_transform_witness :
  ∃ f t q,
    f ∈ @COLUMNS example_externals
    ∧ name f = "column_rating"
    ∧ transform f = Some t
    ∧ valid_binary prec emax float_4_0 = true
    ∧ float_to_Q float_4_0 = Some q
    ∧ (0 <= q <= 5)%Q
    ∧ ∃ y p, t (PFloat float_4_0) = Ok (PFloat y)
             ∧ float_to_Q y = Some p
             ∧ (p == 2 * q)%Q ∧ (0 <= p <= 10)%Q.
Proof.
  destruct (@rating_transform example_externals)
    as (f & t & Hf & Hname & Ht & _ & Hfloat & _).
  exists f, t, (inject_Z 4503599627370496 * 2 ^ (-50))%Q.
  split_and!; [exact Hf|exact Hname|exact Ht|reflexivity|reflexivity|by vm_compute|by vm_compute|].
  apply (Hfloat float_4_0 (inject_Z 4503599627370496 * 2 ^ (-50))%Q);
    [reflexivity|reflexivity|]. split; by vm_compute.
Defined.

(** ** The JSON text of a document *)







Section json.
Context `{Externals}.





End json.


(** * Further properties of the module *)

(** ** The enumeration of the host's columns *)

(** X1. Asked for several types at once, [get_custom_columns] returns the
    columns it returns for the one list of types and for the other, put
    together; asked for no type, it returns none. *)
Theorem get_custom_columns_app (model : Calibre.library_model)
    (types1 types2 : list string) :
  get_custom_columns model (types1 ++ types2)
  = get_custom_columns model types1 ∪ get_custom_columns model types2
  ∧ get_custom_columns model [] = ∅.
Proof.
  split.
  - apply map_eq. intros key. apply option_eq. intros col.
    rewrite lookup_union_Some_raw, !get_custom_columns_lookup. split.
    + intros (c & -> & Hc & Ht & Hm). apply elem_of_app in Ht.
      destruct (decide (Calibre.datatype c ∈ types1)) as [Hin|Hnotin].
      * left. by exists c.
      * right. split.
        -- destruct (get_custom_columns model types1 !! key) as [col'|] eqn:Hl; [|done].
           apply get_custom_columns_lookup in Hl as (c' & _ & Hc' & Ht' & _).
           congruence.
        -- exists c. destruct Ht as [Ht|Ht]; [done|]. by split_and!.
    + intros [(c & -> & Hc & Ht & Hm)|[_ (c & -> & Hc & Ht & Hm)]];
        exists c; split_and!; try done; apply elem_of_app; auto.
  - apply map_eq. intros key. rewrite lookup_empty.
    destruct (get_custom_columns model [] !! key) as [col|] eqn:Hl; [|done].
    apply get_custom_columns_lookup in Hl as (c & _ & _ & Ht & _).
    by apply elem_of_nil in Ht.
Qed.

(** X2. A column the user adds to the library, or changes, shows up in the
    columns of a list of types exactly when it has one of the types and is
    not multi-valued, and else is not among them; a column the user deletes
    is gone from them; every other entry stays. *)
Theorem get_custom_columns_update (columns : gmap string Calibre.custom_column)
    (header : string) (column_types : list string) (key : string)
    (c : Calibre.custom_column) :
  get_custom_columns (Calibre.LibraryModel (<[key := c]> columns) header) column_types
  = (if decide (eligible column_types (key, c))
     then <[key := Custom c]>
            (get_custom_columns (Calibre.LibraryModel columns header) column_types)
     else delete key
            (get_custom_columns (Calibre.LibraryModel columns header) column_types))
  ∧ get_custom_columns (Calibre.LibraryModel (delete key columns) header) column_types
    = delete key (get_custom_columns (Calibre.LibraryModel columns header) column_types).
Proof.
  rewrite !get_custom_columns_filter. simpl. split.
  - rewrite map_filter_insert. case_decide.
    + by rewrite fmap_insert.
    + by rewrite map_filter_delete, fmap_delete.
  - by rewrite map_filter_delete, fmap_delete.
Qed.

(** X3. A custom column of the host is offered by the editor, in the
    columns of its own data type and of no other, exactly when it is not
    multi-valued and its data type is one of the six the layout
    enumerates, unless it is a rating column under the key ['rating'],
    which the built-in column replaces. *)
Theorem custom_column_offered (model : Calibre.library_model) (key : string)
    (c : Calibre.custom_column) :
  Calibre.custom_columns model !! key = Some c →
  ((∃ ty avail, available_columns model !! ty = Some avail
                ∧ avail !! key = Some (Custom c))
   ↔ Calibre.is_multiple c = false
     ∧ Calibre.datatype c ∈ ["comments"; "datetime"; "float"; "int"; "rating"; "text"]
     ∧ ¬ (key = "rating" ∧ Calibre.datatype c = "rating"))
  ∧ ∀ ty avail, available_columns model !! ty = Some avail →
      avail !! key = Some (Custom c) → ty = Calibre.datatype c.
Proof.
  intros Hc.
  assert (∀ ty avail, available_columns model !! ty = Some avail →
            avail !! key = Some (Custom c) →
            ty = Calibre.datatype c ∧ Calibre.is_multiple c = false
            ∧ (ty = "rating" → key ≠ "rating")) as Hoffer.
  { intros ty avail Hav Hkey.
    apply available_columns_lookup in Hav as [[-> ->]|[Hin ->]].
    - unfold get_rating_columns in Hkey.
      apply lookup_insert_Some in Hkey as [[_ ?]|[Hne Hkey]]; [done|].
      apply get_custom_columns_lookup in Hkey as (c' & [= <-] & _ & Ht & Hm).
      apply list_elem_of_singleton in Ht. by split_and!.
    - apply get_custom_columns_lookup in Hkey as (c' & [= <-] & _ & Ht & Hm).
      apply list_elem_of_singleton in Ht. split_and!; try done.
      intros ->. exfalso. revert Hin. apply (bool_decide_unpack _). by vm_compute. }
  split; [split|].
  - intros (ty & avail & Hav & Hkey).
    destruct (Hoffer ty avail Hav Hkey) as (Hty & Hm & Hr).
    split_and!; [done| |].
    + rewrite <- Hty.
      apply available_columns_lookup in Hav as [[-> _]|[Hin _]].
      * do 4 right. left.
      * repeat (apply elem_of_cons in Hin as [->|Hin]);
          [do 5 right; left|do 3 right; left|do 2 right; left|right; left|left|].
        by apply elem_of_nil in Hin.
    + intros [Hk Hr']. apply Hr; [congruence|done].
  - intros (Hm & Ht & Hnot).
    assert (get_custom_columns model [Calibre.datatype c] !! key = Some (Custom c)) as Hl.
    { apply get_custom_columns_lookup. exists c. split_and!; try done. left. }
    exists (Calibre.datatype c).
    destruct (decide (Calibre.datatype c = "rating")) as [Hr|Hr].
    + exists (get_rating_columns model). rewrite Hr. split; [done|].
      unfold get_rating_columns. rewrite lookup_insert_ne by (intros <-; auto).
      by rewrite <- Hr.
    + exists (get_custom_columns model [Calibre.datatype c]). split; [|done].
      unfold available_columns.
      repeat (apply elem_of_cons in Ht as [Ht|Ht];
        [rewrite Ht in *;
         repeat (first [by rewrite lookup_insert_eq | rewrite lookup_insert_ne by done])|]).
      by apply elem_of_nil in Ht.
  - intros ty avail Hav Hkey. by destruct (Hoffer ty avail Hav Hkey) as (-> & _).
Qed.

(** On the example library the rating column [#stars] is offered. *)
Lemma custom_column_offered_witness :
  Calibre.custom_columns example_model !! "#stars"
    = Some (Calibre.CustomColumn "rating" false "Stars")
  ∧ ∃ ty avail, available_columns example_model !! ty = Some avail
                ∧ avail !! "#stars" = Some (Custom (Calibre.CustomColumn "rating" false "Stars")).
Proof.
  assert (Calibre.custom_columns example_model !! "#stars"
          = Some (Calibre.CustomColumn "rating" false "Stars")) as Hc.
  { vm_compute. reflexivity. }
  split; [exact Hc|].
  apply (proj1 (custom_column_offered example_model "#stars" _ Hc)).
  split_and!; [reflexivity|apply (bool_decide_unpack _); by vm_compute|].
  intros [Hk _]. discriminate Hk.
Defined.

(** ** The configuration *)

Lemma set_defaults_lookup (columns : list field) (config : JSONConfig) (key : string) :
  defaults (foldl (λ config column,
    config_set_default (name column) EmptyString config) config columns) !! key
  = if decide (key ∈ field_names columns) then Some EmptyString
    else defaults config !! key.
Proof.
  unfold field_names. revert config.
  induction columns as [|f columns IH]; intros config; cbn [foldl].
  - rewrite decide_False; [done|]. apply not_elem_of_nil.
  - rewrite IH, fmap_cons. cbn [config_set_default defaults].
    destruct (decide (key ∈ name <$> columns)) as [Hin|Hnotin].
    + rewrite decide_True; [done|]. by right.
    + destruct (decide (key = name f)) as [->|Hne].
      * rewrite lookup_insert_eq, decide_True; [done|]. left.
      * rewrite lookup_insert_ne by done. rewrite decide_False; [done|].
        by apply not_elem_of_cons.
Qed.

Lemma CONFIG_getitem_eq (columns : list field) (stored : gmap string string)
    (key : string) :
  config_getitem key (CONFIG columns stored)
  = match stored !! key with
    | Some value => Ok value
    | None =>
        if decide (key ∈ field_names columns) then Ok EmptyString
        else Raise KeyError
    end.
Proof.
  unfold config_getitem. destruct (CONFIG_spec columns stored) as [-> _].
  destruct (stored !! key); [done|].
  unfold CONFIG. rewrite set_defaults_lookup. simpl.
  case_decide; [done|]. by rewrite lookup_empty.
Qed.

(** X4. Reading the configuration under the name of a field of the
    registry never fails: it gives what the settings file holds under the
    name and, where it holds nothing, the empty string, the key of
    ["do not sync"]. *)
Theorem CONFIG_getitem (columns : list field) (stored : gmap string string)
    (key : string) :
  key ∈ field_names columns →
  config_getitem key (CONFIG columns stored)
  = Ok (default EmptyString (stored !! key)).
Proof.
  intros Hkey. rewrite CONFIG_getitem_eq.
  destruct (stored !! key); [done|]. by rewrite decide_True.
Qed.

(** The rating field, stored and not stored. *)
Lemma CONFIG_getitem_witness :
  "column_rating" ∈ field_names (@COLUMNS example_externals)
  ∧ config_getitem "column_rating"
      (CONFIG (@COLUMNS example_externals) (<["column_rating" := "#stars"]> ∅))
    = Ok "#stars"
  ∧ config_getitem "column_rating" (CONFIG (@COLUMNS example_externals) ∅)
    = Ok EmptyString.
Proof.
  assert ("column_rating" ∈ field_names (@COLUMNS example_externals)) as Hkey.
  { apply (list_elem_of_lookup_2 _ 3%nat). reflexivity. }
  split_and!; [exact Hkey| |].
  - exact (CONFIG_getitem _ (<["column_rating" := "#stars"]> ∅) _ Hkey).
  - exact (CONFIG_getitem _ ∅ _ Hkey).
Defined.

(** ** The selection control, again *)

Lemma option_text_unique (M : gmap string column) (ks : list string)
    (texts1 texts2 : list string) :
  Forall2 (option_text M) ks texts1 → Forall2 (option_text M) ks texts2 →
  texts1 = texts2.
Proof.
  intros H1. revert texts2.
  induction H1 as [|k t1 ks texts1 (c1 & Hc1 & ->) _ IH]; intros texts2 H2.
  - by apply Forall2_nil_inv_l in H2.
  - apply Forall2_cons_inv_l in H2 as (t2 & texts2' & (c2 & Hc2 & ->) & H2 & ->).
    rewrite (IH texts2' H2). congruence.
Qed.

(** X5. [populate_combo] forgets what the control held: whatever its
    options, keys and current index were, the control it leaves is the one
    a new control is given. *)
Theorem populate_combo_forgets (custom_columns : gmap string column)
    (selected_column : string) (self : CustomColumnComboBox) :
  populate_combo custom_columns selected_column self
  = new_combo custom_columns selected_column.
Proof.
  unfold new_combo.
  destruct (populate_combo_spec custom_columns selected_column self)
    as (c1 & texts1 & -> & Hn1 & Hi1 & Ht1 & Hno1 & Hyes1).
  destruct (populate_combo_spec custom_columns selected_column
              {| items := []; currentIndex := -1; column_names := [] |})
    as (c2 & texts2 & -> & Hn2 & Hi2 & Ht2 & Hno2 & Hyes2).
  f_equal. destruct c1 as [i1 x1 n1], c2 as [i2 x2 n2]. simpl in *.
  rewrite (option_text_unique _ _ _ _ Ht1 Ht2) in Hi1. subst. f_equal.
  destruct (custom_columns !! selected_column) as [col|] eqn:Hsel.
  - assert (selected_column ∈ sorted (keys custom_columns)) as Hin
      by (apply elem_of_sorted_keys; eauto).
    apply list_elem_of_lookup_1 in Hin as [j Hj]. by rewrite (Hyes1 j Hj), (Hyes2 j Hj).
  - by rewrite Hno1, Hno2.
Qed.

(** X6. [get_selected_column] returns a key exactly when the current index
    lies from minus the number of keys up to, and not including, that
    number, a negative index counting from the end; any other index
    raises [IndexError].  In a populated control that has no current item
    (Qt's index -1, which a choice outside the options leaves), it returns
    the key of the last option. *)
Theorem get_selected_column_bounds :
  (∀ c : CustomColumnComboBox,
     let n := Z.of_nat (length (column_names c)) in
     (- n ≤ currentIndex c < n →
      ∃ k, get_selected_column c = Ok k
           ∧ column_names c !! Z.to_nat (currentIndex c `mod` n) = Some k)
     ∧ (¬ (- n ≤ currentIndex c < n) → get_selected_column c = Raise IndexError))
  ∧ (∀ (custom_columns : gmap string column) (selected_column : string)
       (self : CustomColumnComboBox) (i : Z),
       ∃ c, populate_combo custom_columns selected_column self = Ok c
            ∧ (¬ (0 ≤ i < count c) →
               get_selected_column (setCurrentIndex i c)
               = Ok (default EmptyString (last (sorted (keys custom_columns)))))).
Proof.
  split.
  - intros c n. unfold get_selected_column, py_getitem. fold n. split.
    + intros Hi. destruct (decide (0 ≤ currentIndex c)) as [Hpos|Hneg].
      * rewrite in_range_true by lia. rewrite Z.mod_small by lia.
        destruct (lookup_lt_is_Some_2 (column_names c) (Z.to_nat (currentIndex c)))
          as [k Hk]; [lia|]. rewrite Hk. by exists k.
      * rewrite in_range_false by lia.
        assert ((- n <=? currentIndex c) && (currentIndex c <? 0) = true) as ->.
        { apply andb_true_iff. split; [apply Z.leb_le|apply Z.ltb_lt]; lia. }
        assert (currentIndex c `mod` n = n + currentIndex c) as ->.
        { symmetry. apply (Z.mod_unique _ _ (-1)); lia. }
        destruct (lookup_lt_is_Some_2 (column_names c) (Z.to_nat (n + currentIndex c)))
          as [k Hk]; [lia|]. rewrite Hk. by exists k.
    + intros Hi. rewrite in_range_false by lia.
      destruct (decide (- n ≤ currentIndex c)) as [Hlo|Hlo].
      * assert ((currentIndex c <? 0) = false) as -> by (apply Z.ltb_ge; lia).
        by rewrite andb_false_r.
      * assert ((- n <=? currentIndex c) = false) as -> by (apply Z.leb_gt; lia).
        done.
  - intros M sel self i.
    destruct (populate_combo_ok M sel self) as (c & texts & Hpop & (Hn & Hlen & _) & _).
    exists c. split; [done|]. intros Hi.
    unfold get_selected_column, py_getitem. simpl.
    rewrite (in_range_false i (count c)) by done. rewrite Hn.
    set (ks := sorted (keys M)). simpl length.
    rewrite in_range_false by lia.
    assert ((- Z.of_nat (S (length ks)) <=? -1) && (-1 <? 0) = true) as ->.
    { apply andb_true_iff. split; [apply Z.leb_le; lia|done]. }
    replace (Z.to_nat (Z.of_nat (S (length ks)) + -1)) with (length ks) by lia.
    rewrite last_lookup. destruct ks as [|k ks]; [done|]. simpl.
    destruct (lookup_lt_is_Some_2 (k :: ks) (length ks)) as [x Hx]; [simpl; lia|].
    by rewrite Hx.
Qed.

(** ** Opening and saving *)

Lemma new_combo_selected (avail : gmap string column) (sel : string)
    (c : CustomColumnComboBox) :
  new_combo avail sel = Ok c →
  get_selected_column c
  = Ok (if decide (is_Some (avail !! sel)) then sel else EmptyString).
Proof.
  intros Hnew.
  destruct (new_combo_ok avail sel) as (c' & texts & Hnew' & (Hn & _) & _ & _ & Hno & Hyes).
  assert (c' = c) as -> by congruence.
  unfold get_selected_column. rewrite Hn. case_decide as Hsel.
  - assert (sel ∈ sorted (keys avail)) as Hin by (by apply elem_of_sorted_keys).
    apply list_elem_of_lookup_1 in Hin as [j Hj]. rewrite (Hyes j Hj).
    by apply py_getitem_nonneg.
  - rewrite Hno; [by apply (py_getitem_nonneg _ 0)|].
    destruct (avail !! sel) eqn:Heq; [|done]. destruct Hsel. eauto.
Qed.

(** Opening the editor on a registry and saving at once: every field is
    written back with its selection if the column is still available, and
    with the empty key if not. *)
Lemma open_save_spec (available : gmap string (gmap string column))
    (config : JSONConfig) (columns0 : list field) :
  NoDup (field_names columns0) →
  (∀ f, f ∈ columns0 →
     is_Some (available !! type f) ∧ is_Some (defaults config !! name f)) →
  ∃ columns config',
    layout_loop available config columns0 = Ok columns
    ∧ editor_ok available columns0 columns
    ∧ save_settings columns config = Ok config'
    ∧ defaults config' = defaults config
    ∧ (∀ key, key ∉ field_names columns0 → data config' !! key = data config !! key)
    ∧ ∀ f avail sel,
        f ∈ columns0 → available !! type f = Some avail →
        config_getitem (name f) config = Ok sel →
        data config' !! name f
        = Some (if decide (is_Some (avail !! sel)) then sel else EmptyString).
Proof.
  intros Hnd Hall.
  destruct (layout_loop_spec available config columns0 Hall) as (columns & Hopen & Hrel).
  pose proof (layout_loop_editor_ok _ _ _ _ Hopen Hall) as Hok.
  pose proof (editor_ok_names _ _ _ Hok) as Hnames.
  destruct (save_settings_spec columns config)
    as (config' & Hsave & Hdef & Hset & Hframe).
  { by rewrite Hnames. }
  { by eapply editor_ok_selected. }
  exists columns, config'. split_and!; try done.
  - intros key Hkey. apply Hframe. by rewrite Hnames.
  - intros f avail sel Hf Hav Hsel.
    apply list_elem_of_lookup_1 in Hf as [i Hi].
    destruct (Forall2_lookup_l _ _ _ _ _ Hrel Hi)
      as (f' & Hf' & avail' & sel' & c & Hav' & Hsel' & Hnew & ->).
    assert (avail' = avail) as -> by congruence.
    assert (sel' = sel) as -> by congruence.
    destruct (Hset (set_combo c f) c) as (k & Hk & Hdata); [|done|].
    { by eapply list_elem_of_lookup_2. }
    rewrite (new_combo_selected _ _ _ Hnew) in Hk. simpl in Hdata. congruence.
Qed.

Lemma JSONConfig_eq (config1 config2 : JSONConfig) :
  data config1 = data config2 → defaults config1 = defaults config2 →
  config1 = config2.
Proof. destruct config1, config2. simpl. by intros -> ->. Qed.

(** X7. Opening the editor and saving without touching it keeps, for every
    field, the stored key of a column that is still available for the type
    of the field, and replaces by the empty key a stored key that is not,
    as it does where nothing was stored. *)
Theorem open_save_normalises `{Externals} (model : Calibre.library_model)
    (stored : gmap string string) :
  ∃ columns config',
    CustomColumnsLayout model (CONFIG COLUMNS stored) COLUMNS = Ok columns
    ∧ save_settings columns (CONFIG COLUMNS stored) = Ok config'
    ∧ ∀ f avail,
        f ∈ COLUMNS → available_columns model !! type f = Some avail →
        data config' !! name f
        = Some match stored !! name f with
               | Some sel => if decide (is_Some (avail !! sel)) then sel else EmptyString
               | None => EmptyString
               end.
Proof.
  destruct (CONFIG_spec COLUMNS stored) as [Hdata Hdefaults].
  destruct (open_save_spec (available_columns model) (CONFIG COLUMNS stored) COLUMNS)
    as (columns & config' & Hopen & _ & Hsave & _ & _ & Hvalue).
  { apply NoDup_field_names_COLUMNS. }
  { intros f Hf. split; [by apply COLUMNS_types|by apply Hdefaults]. }
  exists columns, config'. split_and!; try done.
  intros f avail Hf Hav.
  assert (name f ∈ field_names COLUMNS) as Hname by (by apply list_elem_of_fmap_2).
  pose proof (CONFIG_getitem_eq COLUMNS stored (name f)) as Hget.
  destruct (stored !! name f) as [sel|].
  - by apply Hvalue.
  - rewrite decide_True in Hget by done. rewrite (Hvalue f avail EmptyString Hf Hav Hget).
    by case_decide.
Qed.

(** X8. Opening and saving without touching the editor is idempotent: a
    second opening, on the saved configuration, followed by a save leaves
    the configuration as the first save left it. *)
Theorem open_save_idempotent `{Externals} (model : Calibre.library_model)
    (stored : gmap string string) :
  ∃ columns config' columns2,
    CustomColumnsLayout model (CONFIG COLUMNS stored) COLUMNS = Ok columns
    ∧ save_settings columns (CONFIG COLUMNS stored) = Ok config'
    ∧ CustomColumnsLayout model config' columns = Ok columns2
    ∧ save_settings columns2 config' = Ok config'.
Proof.
  destruct (CONFIG_spec COLUMNS stored) as [Hdata Hdefaults].
  set (config := CONFIG COLUMNS stored) in *.
  destruct (open_save_spec (available_columns model) config COLUMNS)
    as (columns & config' & Hopen & Hok & Hsave & Hdef & Hframe & Hvalue).
  { apply NoDup_field_names_COLUMNS. }
  { intros f Hf. split; [by apply COLUMNS_types|by apply Hdefaults]. }
  pose proof (editor_ok_names _ _ _ Hok) as Hnames.
  assert (∀ f, f ∈ columns →
    ∃ f0, f0 ∈ COLUMNS ∧ name f = name f0 ∧ type f = type f0) as Hback.
  { intros f Hf. apply list_elem_of_lookup_1 in Hf as [i Hi].
    destruct (Forall2_lookup_r _ _ _ _ _ Hok Hi) as (f0 & Hf0 & Hn & Ht & _).
    exists f0. split_and!; try done. by eapply list_elem_of_lookup_2. }
  destruct (open_save_spec (available_columns model) config' columns)
    as (columns2 & config'' & Hopen2 & _ & Hsave2 & Hdef2 & Hframe2 & Hvalue2).
  { rewrite Hnames. apply NoDup_field_names_COLUMNS. }
  { intros f Hf. destruct (Hback f Hf) as (f0 & Hf0 & -> & ->).
    rewrite Hdef. split; [by apply COLUMNS_types|by apply Hdefaults]. }
  exists columns, config', columns2. split_and!; try done.
  rewrite Hsave2. f_equal. apply JSONConfig_eq; [|congruence].
  apply map_eq. intros key.
  destruct (decide (key ∈ field_names columns)) as [Hin|Hnotin]; [|by apply Hframe2].
  apply list_elem_of_fmap in Hin as (f & -> & Hf).
  destruct (Hback f Hf) as (f0 & Hf0 & Hn & Ht).
  destruct (COLUMNS_types model f0 Hf0) as [avail Hav].
  destruct (config_getitem_total config (name f0) (Hdefaults f0 Hf0)) as (sel & Hsel & _).
  pose proof (Hvalue f0 avail sel Hf0 Hav Hsel) as Hfirst.
  rewrite Hn, Hfirst.
  rewrite <- Hn. rewrite <- Ht in Hav.
  rewrite (Hvalue2 f avail (if decide (is_Some (avail !! sel)) then sel else EmptyString) Hf Hav).
  - f_equal. repeat case_decide; done.
  - unfold config_getitem. by rewrite Hn, Hfirst.
Qed.

Lemma save_settings_again (columns : list field) (config config' : JSONConfig) :
  NoDup (field_names columns) →
  save_settings columns config = Ok config' →
  save_settings columns config' = Ok config'.
Proof.
  intros Hnd Hsave.
  assert (Forall (λ f, ∃ c k, combo f = Some c ∧ get_selected_column c = Ok k) columns)
    as Hsel.
  { clear Hnd. revert config Hsave.
    induction columns as [|f columns IH]; intros config Hsave; [done|].
    simpl in Hsave. destruct (combo f) as [c|] eqn:Hc; [|done]. simpl in Hsave.
    destruct (get_selected_column c) as [k|] eqn:Hk; [|done]. simpl in Hsave.
    constructor; [by exists c, k|by eapply IH]. }
  destruct (save_settings_spec columns config Hnd Hsel)
    as (config1 & Hsave1 & Hdef1 & Hset1 & Hframe1).
  assert (config1 = config') as -> by congruence.
  destruct (save_settings_spec columns config' Hnd Hsel)
    as (config2 & Hsave2 & Hdef2 & Hset2 & Hframe2).
  rewrite Hsave2. f_equal. apply JSONConfig_eq; [|done].
  apply map_eq. intros key.
  destruct (decide (key ∈ field_names columns)) as [Hin|Hnotin]; [|by apply Hframe2].
  apply list_elem_of_fmap in Hin as (f & -> & Hf).
  rewrite Forall_forall in Hsel. destruct (Hsel f Hf) as (c & k & Hc & Hk).
  destruct (Hset1 f c Hf Hc) as (k1 & Hk1 & ->).
  destruct (Hset2 f c Hf Hc) as (k2 & Hk2 & ->). congruence.
Qed.

(** X9. Saving twice is saving once: in whatever state the user has left
    the open editor and whatever the configuration held, a second save
    changes nothing of what the first one wrote. *)
Theorem save_settings_idempotent `{Externals} (model : Calibre.library_model)
    (stored : gmap string string) (choices : list (string * Z))
    (config : JSONConfig) :
  ∃ columns config',
    CustomColumnsLayout model (CONFIG COLUMNS stored) COLUMNS = Ok columns
    ∧ save_settings (interact choices columns) config = Ok config'
    ∧ save_settings (interact choices columns) config' = Ok config'.
Proof.
  destruct (CustomColumnsLayout_ok model (CONFIG COLUMNS stored)) as (columns & Hopen & Hok).
  { apply CONFIG_spec. }
  apply (interact_editor_ok _ _ _ choices) in Hok.
  pose proof (editor_ok_names _ _ _ Hok) as Hnames.
  destruct (save_settings_spec (interact choices columns) config)
    as (config' & Hsave & _).
  { rewrite Hnames. apply NoDup_field_names_COLUMNS. }
  { by eapply editor_ok_selected. }
  exists columns, config'. split_and!; try done.
  eapply save_settings_again; [|done].
  rewrite Hnames. apply NoDup_field_names_COLUMNS.
Qed.

(** X10. With no custom column in the library the editor still opens: the
    control of every field that is not a rating offers ["do not sync"]
    alone; the control of the rating field offers it and the built-in
    rating column, which is the current option exactly when ['rating'] is
    what the configuration holds for the field. *)
Theorem empty_library_options `{Externals} (header : string)
    (stored : gmap string string) :
  ∃ columns,
    CustomColumnsLayout (Calibre.LibraryModel ∅ header) (CONFIG COLUMNS stored) COLUMNS
      = Ok columns
    ∧ field_names columns = field_names COLUMNS
    ∧ ∀ f, f ∈ columns →
        ∃ c, combo f = Some c
             ∧ if decide (type f = "rating")
               then items c = ["do not sync"; header +:+ " (rating)"]
                    ∧ column_names c = [EmptyString; "rating"]
                    ∧ currentIndex c
                      = (if decide (stored !! name f = Some "rating") then 1 else 0)
               else c = {| items := ["do not sync"]; currentIndex := 0;
                           column_names := [EmptyString] |}.
Proof.
  set (model := Calibre.LibraryModel ∅ header).
  destruct (CONFIG_spec COLUMNS stored) as [Hdata Hdefaults].
  assert (∀ f, f ∈ COLUMNS →
    is_Some (available_columns model !! type f)
    ∧ is_Some (defaults (CONFIG COLUMNS stored) !! name f)) as Hall.
  { intros f Hf. split; [by apply COLUMNS_types|by apply Hdefaults]. }
  destruct (layout_loop_spec _ _ COLUMNS Hall) as (columns & Hopen & Hrel).
  pose proof (layout_loop_editor_ok _ _ _ _ Hopen Hall) as Hok.
  exists columns. split_and!; [done|by eapply editor_ok_names|].
  intros f Hf. apply list_elem_of_lookup_1 in Hf as [i Hi].
  destruct (Forall2_lookup_r _ _ _ _ _ Hrel Hi)
    as (f0 & Hf0 & avail & sel & c & Hav & Hsel & Hnew & ->).
  exists c. split; [done|]. simpl.
  assert (∀ types, get_custom_columns model types = ∅) as Hempty.
  { intros types. unfold get_custom_columns. simpl. apply map_fold_empty. }
  apply available_columns_lookup in Hav as [[Hty ->]|[Hin ->]].
  - rewrite decide_True by done.
    unfold get_rating_columns in Hnew. rewrite Hempty in Hnew. simpl in Hnew.
    unfold new_combo, populate_combo, keys in Hnew.
    rewrite insert_empty, map_to_list_singleton in Hnew.
    change (sorted [("rating", Builtin header)].*1) with ["rating"] in Hnew.
    cbn [populate_combo_loop populate_combo_step] in Hnew.
    rewrite lookup_singleton_eq in Hnew. simpl in Hnew.
    assert (sel = default EmptyString (stored !! name f0)) as ->.
    { apply list_elem_of_lookup_2 in Hf0.
      assert (name f0 ∈ field_names COLUMNS) as Hname by (by apply list_elem_of_fmap_2).
      rewrite CONFIG_getitem_eq in Hsel.
      destruct (stored !! name f0); simpl; [congruence|].
      rewrite decide_True in Hsel by done. congruence. }
    destruct (stored !! name f0) as [s|] eqn:Hs; simpl in Hnew.
    + destruct (decide ("rating" = s)) as [<-|Hne].
      * injection Hnew as <-. by rewrite decide_True.
      * injection Hnew as <-. rewrite decide_False; [done|]. congruence.
    + injection Hnew as <-. by rewrite decide_False.
  - rewrite decide_False.
    + rewrite Hempty in Hnew. unfold new_combo, populate_combo, keys in Hnew.
      rewrite map_to_list_empty in Hnew. by injection Hnew as <-.
    + intros Hr. rewrite Hr in Hin. revert Hin. apply (bool_decide_unpack _). by vm_compute.
Qed.

(** ** The place of the built-in rating column *)

Lemma sorted_last_max (l : list string) (x : string) :
  Sorted str_le l → x ∈ l → (∀ y, y ∈ l → str_le y x) → last l = Some x.
Proof.
  intros Hs Hx Hmax. apply (Sorted_StronglySorted str_le) in Hs.
  destruct (last l) as [z|] eqn:Hz.
  - f_equal. apply last_Some in Hz as [l' ->].
    apply (str_le_antisym z x).
    + apply Hmax. apply elem_of_app. right. left.
    + apply elem_of_app in Hx as [Hx|Hx].
      * apply StronglySorted_app in Hs as (Hle & _ & _). apply Hle; [done|left].
      * apply list_elem_of_singleton in Hx as ->. by apply str_le_compare; left.
  - apply last_None in Hz as ->. by apply elem_of_nil in Hx.
Qed.

Lemma hash_before_rating (key : string) :
  String.prefix "#" key = true → str_le key "rating".
Proof.
  destruct key as [|ch key]; [intros Hp; discriminate Hp|].
  change (String.prefix "#" (String ch key))
    with (if ascii_dec "#" ch then String.prefix EmptyString key else false).
  destruct (ascii_dec "#" ch) as [<-|]; [|intros Hp; discriminate Hp]. intros _.
  unfold str_le, String.leb. by cbn.
Qed.

Lemma Forall2_last {A B} (R : A → B → Prop) (l : list A) (k : list B) (x : A) :
  Forall2 R l k → last l = Some x → ∃ y, last k = Some y ∧ R x y.
Proof.
  intros HR Hl. rewrite last_lookup in Hl.
  destruct (Forall2_lookup_l _ _ _ _ _ HR Hl) as (y & Hy & Hxy).
  exists y. split; [|done]. by rewrite last_lookup, <- (Forall2_length _ _ _ HR).
Qed.

(** X11. When the keys of the custom columns begin with [#], as calibre
    names them, the built-in rating column is the last option of a rating
    control, after every custom rating column. *)
Theorem builtin_rating_last (model : Calibre.library_model)
    (selected_column : string) (self : CustomColumnComboBox) :
  map_Forall (λ key _, String.prefix "#" key = true) (Calibre.custom_columns model) →
  ∃ c, populate_combo (get_rating_columns model) selected_column self = Ok c
       ∧ last (column_names c) = Some "rating"
       ∧ last (items c)
         = Some (Calibre.orig_headers_rating model +:+ " (rating)").
Proof.
  intros Hhash.
  destruct (populate_combo_spec (get_rating_columns model) selected_column self)
    as (c & texts & Hpop & Hn & Hi & Ht & _).
  exists c. split; [done|].
  assert (get_rating_columns model !! "rating"
          = Some (Builtin (Calibre.orig_headers_rating model))) as Hrating.
  { unfold get_rating_columns. apply lookup_insert_eq. }
  assert (last (sorted (keys (get_rating_columns model))) = Some "rating") as Hlast.
  { apply sorted_last_max.
    - apply sorted_Sorted.
    - apply elem_of_sorted_keys. eauto.
    - intros key Hkey. apply elem_of_sorted_keys in Hkey as [col Hcol].
      unfold get_rating_columns in Hcol.
      apply lookup_insert_Some in Hcol as [[<- _]|[_ Hcol]].
      + by apply str_le_compare; left.
      + apply get_custom_columns_lookup in Hcol as (cc & _ & Hcc & _).
        apply hash_before_rating. by apply (Hhash key cc). }
  destruct (Forall2_last _ _ _ _ Ht Hlast) as (text & Htext & col & Hcol & ->).
  rewrite Hn, Hi. split.
  - destruct (sorted (keys (get_rating_columns model))); [done|]. exact Hlast.
  - destruct texts; [done|]. rewrite Hrating in Hcol. injection Hcol as <-. exact Htext.
Qed.

(** On the example library, whose keys all begin with [#]. *)
Lemma builtin_rating_last_witness :
  map_Forall (λ key _, String.prefix "#" key = true)
    (Calibre.custom_columns example_model)
  ∧ ∃ c, populate_combo (get_rating_columns example_model) "#stars"
           {| items := []; currentIndex := -1; column_names := [] |} = Ok c
         ∧ last (column_names c) = Some "rating"
         ∧ last (items c) = Some ("Rating" +:+ " (rating)").
Proof.
  assert (map_Forall (λ key _, String.prefix "#" key = true)
            (Calibre.custom_columns example_model)) as Hhash.
  { apply (bool_decide_unpack _). by vm_compute. }
  split; [exact Hhash|].
  exact (builtin_rating_last example_model "#stars" _ Hhash).
Defined.

(** ** The percentage of a book that is not finished *)

(** The round bit after the shift is the last bit that fell off. *)
Lemma iter_shr_1_round (n : nat) (m : Z) :
  0 ≤ m →
  shr_r (Nat.iter (S n) shr_1 {| shr_m := m; shr_r := false; shr_s := false |})
  = Z.odd (m / 2 ^ Z.of_nat n).
Proof.
  intros Hm. rewrite Nat.iter_succ.
  destruct (iter_shr_1_spec n m Hm) as [Hiter _].
  set (mrs := Nat.iter n shr_1 _) in *.
  assert (0 ≤ shr_m mrs) as Hpos by (rewrite Hiter; apply Z.div_pos; lia).
  destruct (shr_1_spec mrs Hpos) as (_ & -> & _). by rewrite Hiter.
Qed.

Lemma odd_div_mod (m k : Z) :
  0 ≤ m → 0 < k → Z.odd (m / 2 ^ (k - 1)) = true → 2 ^ k ≤ 2 * (m `mod` 2 ^ k).
Proof.
  intros Hm Hk Hodd.
  assert (0 < 2 ^ (k - 1)) as Hp by (apply Z.pow_pos_nonneg; lia).
  assert (2 ^ k = 2 * 2 ^ (k - 1)) as Hpow.
  { replace k with (Z.succ (k - 1)) at 1 by lia. apply Z.pow_succ_r. lia. }
  set (a := m / 2 ^ (k - 1)) in *.
  pose proof (Z.div_mod m (2 ^ (k - 1))) as Hdm. fold a in Hdm.
  pose proof (Z.mod_pos_bound m (2 ^ (k - 1)) Hp) as Hr.
  rewrite Z.odd_spec in Hodd. destruct Hodd as [a' Ha].
  assert (m `mod` 2 ^ k = 2 ^ (k - 1) + m `mod` 2 ^ (k - 1)) as ->; [|lia].
  symmetry. apply (Z.mod_unique _ _ a'); lia.
Qed.

(** [shr] from an exact position, with what the round bit tells. *)
Lemma shr_nearest_spec (m e n : Z) :
  0 ≤ m →
  let k := Z.max 0 n in
  let '(mrs, e') := shr (shr_record_of_loc m loc_Exact) e n in
  e' = e + k
  ∧ shr_m mrs = m / 2 ^ k
  ∧ (shr_r mrs = true → 2 ^ k ≤ 2 * (m `mod` 2 ^ k)).
Proof.
  intros Hm. destruct n as [|p|p]; simpl.
  - split_and!; [lia|by rewrite Z.div_1_r|done].
  - rewrite iter_pos_nat.
    destruct (iter_shr_1_spec (Pos.to_nat p) m Hm) as [H1 _].
    rewrite positive_nat_Z in H1. split_and!; [done|done|].
    destruct (Pos.to_nat p) as [|n] eqn:Hn; [lia|].
    rewrite (iter_shr_1_round n m Hm). intros Hodd.
    apply odd_div_mod; [done|lia|].
    replace (Z.max 0 (Z.pos p) - 1) with (Z.of_nat n) by lia. done.
  - split_and!; [lia|by rewrite Z.div_1_r|done].
Qed.

(** Rounding to nearest: twice the rounded mantissa, brought back to the
    exponent of the product, exceeds twice the product by at most one
    unit of the first shift. *)
Lemma binary_round_aux_nearest (sx : bool) (m e : Z) :
  0 < m →
  let k1 := Z.max 0 (fexp prec emax (Zdigits2 m + e) - e) in
  match binary_round_aux prec emax sx m e loc_Exact with
  | S754_finite _ m3 e3 =>
      e + k1 ≤ e3 ∧ 2 * Z.pos m3 * 2 ^ (e3 - e) ≤ 2 * m + 2 ^ k1
  | _ => True
  end.
Proof.
  intros Hm k1. unfold binary_round_aux, shr_fexp.
  pose proof (shr_nearest_spec m e (fexp prec emax (Zdigits2 m + e) - e)) as H1.
  destruct (shr _ e _) as [mrs1 e1]. destruct H1 as (-> & Hm1 & Hround); [lia|].
  fold k1 in Hm1, Hround |- *.
  destruct (round_nearest_even_bounds mrs1) as [Hb Hr].
  set (m2 := round_nearest_even _ _) in *.
  assert (0 ≤ k1) by (unfold k1; lia).
  assert (0 < 2 ^ k1) as Hp1 by (apply Z.pow_pos_nonneg; lia).
  assert (0 ≤ m / 2 ^ k1) by (apply Z.div_pos; lia).
  assert (2 * m2 * 2 ^ k1 ≤ 2 * m + 2 ^ k1) as Hm2.
  { pose proof (Z.div_mod m (2 ^ k1)) as Hdm.
    pose proof (Z.mod_pos_bound m (2 ^ k1) Hp1) as Hmod.
    destruct (shr_r mrs1) eqn:Hbit.
    - specialize (Hround eq_refl). nia.
    - rewrite (Hr eq_refl), Hm1. nia. }
  pose proof (shr_exact_spec m2 (e + k1)
    (fexp prec emax (Zdigits2 m2 + (e + k1)) - (e + k1))) as H2.
  destruct (shr _ (e + k1) _) as [mrs2 e2]. destruct H2 as (-> & Hm3 & _); [lia|].
  set (k2 := Z.max 0 (fexp prec emax (Zdigits2 m2 + (e + k1)) - (e + k1))) in *.
  assert (0 ≤ k2) by (unfold k2; lia).
  assert (0 < 2 ^ k2) as Hp2 by (apply Z.pow_pos_nonneg; lia).
  simpl. destruct (shr_m mrs2) as [|m3|m3] eqn:Hm3eq; try done.
  destruct (e + k1 + k2 <=? emax - prec); [|done].
  split; [lia|].
  replace (e + k1 + k2 - e) with (k2 + k1) by lia. rewrite Z.pow_add_r by lia.
  assert (Z.pos m3 * 2 ^ k2 ≤ m2); [|nia].
  rewrite Hm3, Z.mul_comm. apply Z.mul_div_le. lia.
Qed.

Lemma float_to_Q_below_one (s : bool) (m : positive) (e : Z) (q : Q) :
  float_to_Q (S754_finite s m e) = Some q → (0 <= q)%Q → (q < 1)%Q →
  s = false ∧ e < 0 ∧ Z.pos m < 2 ^ (- e).
Proof.
  intros Hq H0 H1.
  destruct (float_to_Q_unit s m e q Hq) as (-> & He & Hm).
  { split; [done|]. by apply Qlt_le_weak. }
  destruct (float_to_Q_finite false m e) as (q' & Hq' & Heq).
  assert (q' = q) as -> by congruence. rewrite Heq in H1. clear Heq Hq Hq' H0.
  destruct (Z.leb_spec 0 e) as [He'|He'].
  - assert (e = 0) as -> by lia. exfalso.
    change 1%Q with (inject_Z 1) in H1. rewrite <- Zlt_Qlt in H1. simpl in H1. lia.
  - assert (0 < 2 ^ (- e)) as Hpos by (apply Z.pow_pos_nonneg; lia).
    unfold Qlt in H1. simpl in H1. rewrite Z2Pos.id in H1 by done.
    split_and!; [done|done|lia].
Qed.

(** Below 1 the float product by 100 stays below 100, although the exact
    product may lie less than a unit in the last place under it. *)
Lemma floor_percent_below_one (x : spec_float) (q : Q) :
  valid_binary prec emax x = true →
  float_to_Q x = Some q → (0 <= q)%Q → (q < 1)%Q →
  ∃ n, math_floor (float_mul x (float_of_int 100)) = Ok n ∧ 0 ≤ n ≤ 99.
Proof.
  intros Hvalid Hq H0 H1. destruct x as [s|s| |s m e]; try done.
  - exists 0. by split.
  - destruct (float_to_Q_below_one s m e q Hq H0 H1) as (-> & He & Hm).
    simpl in Hvalid. apply andb_true_iff in Hvalid as [Hcanon _].
    apply Z.eqb_eq in Hcanon. unfold fexp, emin in Hcanon.
    destruct (digits2_pos_bounds m) as [_ Hdig].
    set (D := Z.pos (digits2_pos m)) in *.
    assert (0 < D) by (unfold D; lia).
    assert (Z.pos m < 2 ^ 53) as Hm53.
    { assert (2 ^ D ≤ 2 ^ 53); [|lia]. apply Z.pow_le_mono_r; unfold prec, emax in *; lia. }
    assert (-1074 ≤ e) as Hemin by (unfold prec, emax in *; lia).
    change (float_mul (S754_finite false m e) (float_of_int 100))
      with (binary_round_aux prec emax false (Z.pos (m * 7036874417766400)) (e + -46) loc_Exact).
    rewrite Pos2Z.inj_mul.
    set (M := Z.pos m * 7036874417766400).
    assert (0 < 2 ^ (- e)) as Hpos by (apply Z.pow_pos_nonneg; lia).
    assert (0 < M) as HM by (unfold M; lia).
    pose proof (binary_round_aux_nearest false M (e + -46) HM) as Hnear.
    destruct (binary_round_aux_le false M (e + -46) 25 2)
      as [Hres|(m3 & e3 & Hres & He3 & Hm3)]; try done; try (unfold emin, prec, emax; lia).
    { replace (2 - (e + -46)) with (48 + - e) by lia.
      rewrite Z.pow_add_r by lia. change (2 ^ 48) with 281474976710656. unfold M. lia. }
    + rewrite Hres. exists 0. by split.
    + rewrite Hres in Hnear |- *. cbv beta iota zeta in Hnear.
      destruct Hnear as [Hk1 Hnear].
      set (k1 := Z.max 0 (fexp prec emax (Zdigits2 M + (e + -46)) - (e + -46))) in *.
      assert (k1 ≤ 53) as Hk53.
      { assert (Zdigits2 M ≤ Z.max 0 106) as HdM.
        { apply Zdigits2_le. split; [lia|]. unfold M.
          change (2 ^ 106) with (2 ^ 53 * 2 ^ 53).
          change (2 ^ 53) with 9007199254740992 in *. nia. }
        unfold k1, fexp, emin, prec, emax. lia. }
      assert (0 ≤ k1) by (unfold k1; lia).
      assert (2 ^ k1 ≤ 2 ^ 53) as Hpk by (apply Z.pow_le_mono_r; lia).
      change (2 ^ 53) with 9007199254740992 in *.
      set (W := e3 - (e + -46)) in *.
      assert (0 ≤ W) by (unfold W; lia).
      assert (0 < 2 ^ W) as HpW by (apply Z.pow_pos_nonneg; lia).
      assert (Z.pos m3 * 2 ^ W < 7036874417766400 * 2 ^ (- e)) as Hlt.
      { unfold M in Hnear. nia. }
      simpl. eexists. split; [done|].
      destruct (Z.leb_spec 0 e3) as [Hpos3|Hneg3].
      * assert (0 < 2 ^ e3) by (apply Z.pow_pos_nonneg; lia).
        assert (2 ^ W = 2 ^ e3 * 2 ^ (46 + - e)) as HW.
        { rewrite <- Z.pow_add_r by lia. f_equal. unfold W. lia. }
        rewrite HW, Z.pow_add_r in Hlt by lia.
        change (2 ^ 46) with 70368744177664 in Hlt. split; [lia|nia].
      * assert (0 < 2 ^ (- e3)) by (apply Z.pow_pos_nonneg; lia).
        split; [apply Z.div_pos; lia|].
        assert (Z.pos m3 / 2 ^ (- e3) < 100); [|lia].
        apply Z.div_lt_upper_bound; [lia|].
        assert (2 ^ (- e) * 70368744177664 = 2 ^ W * 2 ^ (- e3)) as HW.
        { change 70368744177664 with (2 ^ 46).
          rewrite <- !Z.pow_add_r by lia. f_equal. unfold W. lia. }
        nia.
Qed.

(** X12. For a float of the format between 0 and 1, 1 excluded, the
    transform of [column_percent_read_int] returns an integer between 0
    and 99: the percentage is 100 for a book that is finished, as for the
    float 1.0, and for no value below, not even the largest float under
    1. *)
Theorem percent_read_int_below_one `{Externals} :
  ∃ f t,
    f ∈ COLUMNS
    ∧ name f = "column_percent_read_int"
    ∧ transform f = Some t
    ∧ (∀ x q, valid_binary prec emax x = true →
         float_to_Q x = Some q → (0 <= q)%Q → (q < 1)%Q →
         ∃ n, t (PFloat x) = Ok (PInt n) ∧ 0 ≤ n ≤ 99)
    ∧ t (PFloat float_1_0) = Ok (PInt 100)
    ∧ t (PFloat float_below_1) = Ok (PInt 99).
Proof.
  eexists _, _. split; [apply (list_elem_of_lookup_2 _ 1%nat); reflexivity|].
  split_and!; try reflexivity.
  intros x q Hvalid Hq H0 H1.
  destruct (floor_percent_below_one x q Hvalid Hq H0 H1) as (n & Hfloor & Hn).
  exists n. split; [|done].
  cbn [float_ mbind result_mbind result_bind]. by rewrite Hfloor.
Qed.

(** The bound at the largest float below 1. *)
Lemma percent_read_int_below_one_witness :
  ∃ f t q,
    f ∈ @COLUMNS example_externals
    ∧ transform f = Some t
    ∧ valid_binary prec emax float_below_1 = true
    ∧ float_to_Q float_below_1 = Some q
    ∧ (0 <= q)%Q ∧ (q < 1)%Q
    ∧ ∃ n, t (PFloat float_below_1) = Ok (PInt n) ∧ 0 ≤ n ≤ 99.
Proof.
  destruct (@percent_read_int_below_one example_externals)
    as (f & t & Hf & _ & Ht & Hbelow & _).
  exists f, t, (inject_Z 9007199254740991 * 2 ^ (-53))%Q.
  split_and!; [exact Hf|exact Ht|reflexivity|reflexivity|by vm_compute|by vm_compute|].
  apply (Hbelow float_below_1 (inject_Z 9007199254740991 * 2 ^ (-53))%Q);
    [reflexivity|reflexivity|by vm_compute|by vm_compute].
Defined.

(** ** Choices that were not saved *)

Lemma layout_loop_ignores_combo (available : gmap string (gmap string column))
    (config : JSONConfig) (columns1 columns2 : list field) :
  Forall2 (λ f g, ∀ c, set_combo c f = set_combo c g) columns1 columns2 →
  layout_loop available config columns1 = layout_loop available config columns2.
Proof.
  induction 1 as [|f g columns1 columns2 Hfg _ IH]; [done|].
  pose proof (Hfg {| items := []; currentIndex := 0; column_names := [] |}) as Heq.
  assert (type f = type g) as Ht by (by apply (f_equal type) in Heq).
  assert (name f = name g) as Hn by (by apply (f_equal name) in Heq).
  clear Heq.
  cbn [layout_loop]. rewrite Ht, Hn, IH.
  destruct (from_option KeyError (available !! type g)) as [avail|]; [|done].
  cbn [mbind result_mbind result_bind].
  destruct (config_getitem (name g) config) as [sel|]; [|done].
  cbn [mbind result_mbind result_bind].
  destruct (new_combo avail sel) as [c|]; [|done].
  cbn [mbind result_mbind result_bind].
  destruct (layout_loop available config columns2); [|done].
  cbn [mbind result_mbind result_bind]. by rewrite Hfg.
Qed.

Lemma interact_same_descriptor (columns0 columns : list field)
    (choices : list (string * Z)) :
  Forall2 (λ f g, ∀ c, set_combo c f = set_combo c g) columns columns0 →
  Forall2 (λ f g, ∀ c, set_combo c f = set_combo c g)
    (interact choices columns) columns0.
Proof.
  unfold interact. revert columns.
  induction choices as [|[n i] choices IH]; intros columns Hrel; [done|].
  cbn [foldl]. apply IH. unfold choose. apply Forall2_fmap_l.
  eapply Forall2_impl; [exact Hrel|]. simpl. intros f g Hfg c.
  destruct (combo f) as [c'|]; [|done]. case_decide; [|done].
  rewrite <- Hfg. done.
Qed.

(** X13. What the user chose but did not save is forgotten: opening the
    editor again, on any configuration, builds the controls a first
    opening on that configuration builds, and on the unchanged one the
    controls that were first shown. *)
Theorem unsaved_choices_forgotten `{Externals} (model : Calibre.library_model)
    (stored : gmap string string) (choices : list (string * Z))
    (config : JSONConfig) :
  ∃ columns,
    CustomColumnsLayout model (CONFIG COLUMNS stored) COLUMNS = Ok columns
    ∧ CustomColumnsLayout model config (interact choices columns)
      = CustomColumnsLayout model config COLUMNS
    ∧ CustomColumnsLayout model (CONFIG COLUMNS stored) (interact choices columns)
      = Ok columns.
Proof.
  destruct (CONFIG_spec COLUMNS stored) as [_ Hdefaults].
  destruct (layout_loop_spec (available_columns model) (CONFIG COLUMNS stored) COLUMNS)
    as (columns & Hopen & Hrel).
  { intros f Hf. split; [by apply COLUMNS_types|by apply Hdefaults]. }
  assert (Forall2 (λ f g, ∀ c, set_combo c f = set_combo c g)
            (interact choices columns) COLUMNS) as Hsame.
  { apply interact_same_descriptor. apply Forall2_flip.
    eapply Forall2_impl; [exact Hrel|]. simpl.
    by intros f0 f (avail & sel & c & _ & _ & _ & ->) c'. }
  exists columns. unfold CustomColumnsLayout. split_and!; [done| |].
  - by apply layout_loop_ignores_combo.
  - by rewrite (layout_loop_ignores_combo _ _ _ _ Hsame).
Qed.
